(** * acr-builder: registry credentials and remote digest resolution

    A shallow embedding of [graph/registry_credential.go] and
    [builder/digest_remote.go], with the properties their specification
    states about them.

    Go strings are byte sequences, modelled by [string] (a list of 8-bit
    [ascii] values).  A Go [error] value is modelled by the inductive type
    [errors.error]; the nil error is [None : option errors.error].  A Go
    pointer that may be nil is an [option].  What the program takes from
    other packages (the JSON codec, Unicode case mapping, the reference
    grammar, the registry client) is a method of a type class, so every
    theorem holds for all behaviours of those packages. *)

From Stdlib Require Import String Ascii List Bool Arith Lia.
From stdpp Require Import base option strings gmap functions.

Local Open Scope string_scope.

(** ** Errors (github.com/pkg/errors and fmt.Errorf) *)

Module errors.

(** [New msg] is [errors.New(msg)], and the value [fmt.Errorf] makes from a
    format without [%w]; [Wrap cause msg] is [errors.Wrap(cause, msg)]. *)
Inductive error : Type :=
| New (msg : string)
| Wrap (cause : error) (msg : string).

(** The text [err.Error()] prints. *)
Fixpoint Error (e : error) : string :=
  match e with
  | New msg => msg
  | Wrap cause msg => msg +:+ ": " +:+ Error cause
  end.

End errors.

(** ** Formatting (fmt.Sprintf, for the [%s] verb only) *)

(** [Sprintf format args] replaces each [%s] of [format] by the next element
    of [args].  The program's format strings hold no other verb and get as
    many arguments as they have verbs. *)
Fixpoint Sprintf (format : string) (args : list string) : string :=
  match format with
  | EmptyString => EmptyString
  | String c rest =>
      match rest with
      | String c' rest' =>
          if Ascii.eqb c "%"%char && Ascii.eqb c' "s"%char then
            match args with
            | a :: args' => a +:+ Sprintf rest' args'
            | [] => String c (Sprintf rest args)
            end
          else String c (Sprintf rest args)
      | EmptyString => String c EmptyString
      end
  end.

(** [errors.Wrapf(err, format, args...)] and [fmt.Errorf(format, args...)]. *)
Definition Wrapf (err : errors.error) (format : string) (args : list string)
  : errors.error :=
  errors.Wrap err (Sprintf format args).

Definition Errorf (format : string) (args : list string) : errors.error :=
  errors.New (Sprintf format args).

(** ** Lowercasing (strings.ToLower) *)

(** [strings.Map(unicode.ToLower, s)], the path [strings.ToLower] takes for a
    string with a byte outside ASCII. *)
Class Unicode : Type := {
  unicodeToLower : string -> string
}.

Definition isUpper (c : ascii) : bool :=
  ((65 <=? nat_of_ascii c) && (nat_of_ascii c <=? 90))%nat.

Definition lowerByte (c : ascii) : ascii :=
  if isUpper c then ascii_of_nat (nat_of_ascii c + 32) else c.

Fixpoint isASCII (s : string) : bool :=
  match s with
  | EmptyString => true
  | String c s' => (nat_of_ascii c <? 128)%nat && isASCII s'
  end.

Fixpoint mapBytes (f : ascii -> ascii) (s : string) : string :=
  match s with
  | EmptyString => EmptyString
  | String c s' => String (f c) (mapBytes f s')
  end.

Definition ToLower `{Unicode} (s : string) : string :=
  if isASCII s then mapBytes lowerByte s else unicodeToLower s.

(** ** graph/registry_credential.go *)

Module graph.

Import errors.

Definition errInvalidRegName : error := New "registry name can't be empty".
Definition errInvalidUsername : error := New "username can't be empty".
Definition errInvalidPassword : error := New "password can't be empty".
Definition errInvalidIdentity : error := New "identity can't be empty".
Definition errInvalidArmResourceID : error := New "armResource can't be empty".
Definition errCouldNotClassify : error :=
  New "unable to classify credential into opaque, vault or msi".

Definition Opaque : string := "opaque".
Definition VaultSecret : string := "vaultsecret".

Record RegistryCredential : Type := mkRegistryCredential {
  Registry : string;
  Username : string;
  UsernameType : string;
  Password : string;
  PasswordType : string;
  Identity : string;
  ArmResource : string
}.

(** The zero value of the struct, which [var cred RegistryCredential]
    declares. *)
Definition zeroRegistryCredential : RegistryCredential :=
  mkRegistryCredential "" "" "" "" "" "" "".

(** [json.Unmarshal([]byte(str), &cred)]: from the text and the value [cred]
    holds before the call, the value it holds afterwards and the error. *)
Class JSON : Type := {
  json_Unmarshal :
    string -> RegistryCredential -> RegistryCredential * option error
}.

Definition CreateRegistryCredentialFromString `{Unicode} `{JSON} (str : string)
  : option RegistryCredential * option error :=
  let '(cred, err) := json_Unmarshal str zeroRegistryCredential in
  match err with
  | Some err =>
      (None, Some (Wrap err "unable to unmarshal Credentials from string"))
  | None =>
      let usernameType := ToLower (UsernameType cred) in
      let passwordType := ToLower (PasswordType cred) in
      if String.eqb (Registry cred) "" then (None, Some errInvalidRegName)
      else
        let isOpaque :=
          String.eqb usernameType Opaque && String.eqb passwordType Opaque in
        let hasVaultSecret :=
          String.eqb usernameType VaultSecret
          || String.eqb passwordType VaultSecret in
        let isMSI :=
          String.eqb usernameType "" && String.eqb passwordType "" in
        if isOpaque then
          if String.eqb (Username cred) "" then (None, Some errInvalidUsername)
          else if String.eqb (Password cred) "" then
            (None, Some errInvalidPassword)
          else
            (Some {| Registry := Registry cred;
                     Username := Username cred;
                     UsernameType := usernameType;
                     Password := Password cred;
                     PasswordType := passwordType;
                     Identity := "";
                     ArmResource := "" |}, None)
        else if hasVaultSecret then
          if String.eqb (Username cred) "" then (None, Some errInvalidUsername)
          else if String.eqb (Password cred) "" then
            (None, Some errInvalidPassword)
          else if String.eqb (Identity cred) "" then
            (None, Some errInvalidIdentity)
          else
            (Some {| Registry := Registry cred;
                     Username := Username cred;
                     UsernameType := usernameType;
                     Password := Password cred;
                     PasswordType := passwordType;
                     Identity := Identity cred;
                     ArmResource := "" |}, None)
        else if isMSI then
          if String.eqb (Identity cred) "" then (None, Some errInvalidIdentity)
          else if String.eqb (ArmResource cred) "" then
            (None, Some errInvalidArmResourceID)
          else
            (Some {| Registry := Registry cred;
                     Username := "";
                     UsernameType := "";
                     Password := "";
                     PasswordType := "";
                     Identity := Identity cred;
                     ArmResource := ArmResource cred |}, None)
        else (None, Some errCouldNotClassify)
  end.

(** [Equals]: the receiver and the argument may both be nil. *)
Definition Equals (s t : option RegistryCredential) : bool :=
  match s, t with
  | None, None => true
  | None, Some _ | Some _, None => false
  | Some s, Some t =>
      String.eqb (Registry s) (Registry t)
      && String.eqb (Username s) (Username t)
      && String.eqb (UsernameType s) (UsernameType t)
      && String.eqb (Password s) (Password t)
      && String.eqb (PasswordType s) (PasswordType t)
      && String.eqb (Identity s) (Identity t)
      && String.eqb (ArmResource s) (ArmResource t)
  end.

End graph.

(** ** pkg/image: the image reference *)

Module image.

(** Modelled from the spec: the struct [image.Reference] is declared in
    pkg/image, outside the two source files; it has the registry, the
    repository, the tag, the digest and the reference display-string. *)
Record Reference : Type := mkReference {
  Registry : string;
  Repository : string;
  Tag : string;
  Digest : string;
  Reference_ : string
}.

(** The assignment [ref.Digest = digest] on the struct. *)
Definition setDigest (r : Reference) (digest : string) : Reference :=
  {| Registry := Registry r;
     Repository := Repository r;
     Tag := Tag r;
     Digest := digest;
     Reference_ := Reference_ r |}.

End image.

(** ** graph: the credential lookup table *)

Module login.

(** Modelled from the spec: [graph.RegistryLoginCredentials] is declared
    outside the two source files; it maps a registry host to a pair of
    resolved secrets, read as [cred.Username.ResolvedValue] and
    [cred.Password.ResolvedValue]. *)
Record Secret : Type := mkSecret {
  ResolvedValue : string
}.

Record ResolvedRegistryCred : Type := mkResolvedRegistryCred {
  Username : Secret;
  Password : Secret
}.

End login.

(** The content descriptor [resolver.Resolve] returns; [Digest] is a
    [digest.Digest], a string type whose [String()] is the string itself. *)
Module ocispec.

Record Descriptor : Type := mkDescriptor {
  Digest : string
}.

Definition Digest_String (d : string) : string := d.

End ocispec.

(** ** builder/digest_remote.go *)

Module builder.

Import errors.

(** A two-valued return [(T, error)] of another package. *)
Inductive result (A : Type) : Type :=
| Ok (a : A)
| Err (e : error).

Arguments Ok {A} a.
Arguments Err {A} e.

(** A non-nil pointer: an address of the store. *)
Definition ptr : Type := nat.

(** The types of the packages the resolver uses.  [Network] is the state of
    all that lies behind the registry client. *)
Class Packages : Type := {
  context_Context : Type;
  http_Client : Type;
  http_DefaultClient : http_Client;
  reference_Reference : Type;
  Network : Type
}.

(** [docker.ResolverOptions], with the two fields the program sets. *)
Record ResolverOptions `{Packages} : Type := mkResolverOptions {
  Client : http_Client;
  Credentials : option (string -> string * string * option error)
}.

Record Resolver `{Packages} : Type := mkResolver {
  options : ResolverOptions
}.

Definition docker_NewResolver `{Packages} (opts : ResolverOptions) : Resolver :=
  {| options := opts |}.

(** The constant and the functions declared outside the two source files:
    the reserved marker, [reference.Parse] with the [String()] of its result,
    and [Resolve] of the registry client, which answers from the state of the
    network and may change it. *)
Class Collaborators `{Packages} : Type := {
  NoBaseImageSpecifierLatest : string;
  reference_Parse : string -> result reference_Reference;
  reference_String : reference_Reference -> string;
  docker_Resolve :
    Resolver -> context_Context -> string -> Network ->
    result (string * ocispec.Descriptor) * Network
}.

(** What a call does that its caller can observe, in order. *)
Inductive Event `{Packages} : Type :=
| ResolveCalled (resolver : Resolver) (ctx : context_Context) (ref : string)
| DigestStored (p : ptr) (digest : string).

(** The store: the [image.Reference] structs and the credential maps by
    address, the network, and the events so far. *)
Record World `{Packages} : Type := mkWorld {
  references : ptr -> image.Reference;
  credentials : ptr -> gmap string login.ResolvedRegistryCred;
  network : Network;
  trace : list Event
}.

(** A Go map is a reference; the nil map is [None]. *)
Record remoteDigest : Type := mkRemoteDigest {
  registryCreds : option ptr
}.

Definition NewRemoteDigest (creds : option ptr) : remoteDigest :=
  {| registryCreds := creds |}.

(** *** The state monad of the store *)

Definition M `{Packages} (A : Type) : Type := World -> A * World.

Definition ret `{Packages} {A : Type} (a : A) : M A := fun w => (a, w).

Definition bind `{Packages} {A B : Type} (m : M A) (k : A -> M B) : M B :=
  fun w => let '(a, w') := m w in k a w'.

Notation "x <- c ;; k" := (bind c (fun x => k))
  (at level 100, c at next level, right associativity).
Notation "c ;;; k" := (bind c (fun _ => k))
  (at level 100, right associativity).

(** [*p] *)
Definition load `{Packages} (p : ptr) : M image.Reference :=
  fun w => (references w p, w).

(** [p.Digest = digest] *)
Definition storeDigest `{Packages} (p : ptr) (digest : string) : M unit :=
  fun w =>
    (tt, {| references :=
              <[p := image.setDigest (references w p) digest]> (references w);
            credentials := credentials w;
            network := network w;
            trace := trace w ++ [DigestStored p digest] |}).

(** [cred, ok := m[key]]; a nil map has no entry. *)
Definition lookupCreds `{Packages} (m : option ptr) (key : string)
  : M (option login.ResolvedRegistryCred) :=
  fun w =>
    (match m with
     | None => None
     | Some l => credentials w l !! key
     end, w).

(** [resolver.Resolve(ctx, ref)] *)
Definition Resolve `{Collaborators} (resolver : Resolver)
  (ctx : context_Context) (ref : string)
  : M (result (string * ocispec.Descriptor)) :=
  fun w =>
    let '(res, n) := docker_Resolve resolver ctx ref (network w) in
    (res, {| references := references w;
             credentials := credentials w;
             network := n;
             trace := trace w ++ [ResolveCalled resolver ctx ref] |}).

Definition getReferencePath `{Collaborators} (ref : ptr)
  : M (string * option error) :=
  r <- load ref ;;
  let fullRefPath := Sprintf "%s/%s" [image.Registry r; image.Repository r] in
  let tag := if negb (String.eqb (image.Tag r) "") then image.Tag r else "latest" in
  let fullRefPath := Sprintf "%s:%s" [fullRefPath; tag] in
  match reference_Parse fullRefPath with
  | Err err =>
      ret ("", Some (Wrapf err "Failed to parse the reference %s" [image.Reference_ r]))
  | Ok fullRef => ret (reference_String fullRef, None)
  end.

(** The statements of [PopulateDigest] that follow its credential block,
    from [resolver := docker.NewResolver(opts)] to the end, for the options
    [opts] the block leaves. *)
Definition resolveAndStore `{Collaborators} (opts : ResolverOptions)
  (ctx : context_Context) (ref : ptr) : M (option error) :=
  let resolver := docker_NewResolver opts in
  pathErr <- getReferencePath ref ;;
  let '(imageRef, err) := pathErr in
  match err with
  | Some err => ret (Some err)
  | None =>
      res <- Resolve resolver ctx imageRef ;;
      match res with
      | Err err =>
          r <- load ref ;;
          ret (Some (Wrapf err "Failed to Resolve the reference '%s'"
                       [image.Reference_ r]))
      | Ok (_, desc) =>
          storeDigest ref (ocispec.Digest_String (ocispec.Digest desc)) ;;;
          ret None
      end
  end.

(** [d] is the struct the receiver points to (the receiver is the non-nil
    pointer [NewRemoteDigest] returns) and [ref] the pointer argument.  The
    fields of [*ref] are read once, into [r]: nothing is stored to [*ref]
    before the last of these reads. *)
Definition PopulateDigest `{Collaborators} (d : remoteDigest)
  (ctx : context_Context) (ref : option ptr) : M (option error) :=
  match ref with
  | None => ret None
  | Some p =>
      r <- load p ;;
      if negb (String.eqb (image.Digest r) "") then ret None
      else if String.eqb (image.Reference_ r) NoBaseImageSpecifierLatest then
        ret None
      else
        let client := http_DefaultClient in
        let opts := {| Client := client; Credentials := None |} in
        entry <- lookupCreds (registryCreds d) (image.Registry r) ;;
        match entry with
        | Some cred =>
            if String.eqb (login.ResolvedValue (login.Username cred)) ""
               || String.eqb (login.ResolvedValue (login.Password cred)) ""
            then
              ret (Some (Errorf "error fetching credentials for '%s'"
                           [image.Registry r]))
            else
              (* Adds credential resolver if private registry *)
              let opts :=
                {| Client := Client opts;
                   Credentials :=
                     Some (fun hostName : string =>
                             (login.ResolvedValue (login.Username cred),
                              login.ResolvedValue (login.Password cred),
                              None)) |} in
              resolveAndStore opts ctx p
        | None => resolveAndStore opts ctx p
        end
  end.

End builder.

(** ** Concrete inputs

    Serialized credentials and their decodings, an image reference, a
    credential table and a registry, on which the theorems are run. *)

Module sample.

Import errors.

(** The double-quote character. *)
Definition quote : string := String (ascii_of_nat 34) EmptyString.

Definition jsonField (kv : string * string) : string :=
  quote +:+ kv.1 +:+ quote +:+ ":" +:+ quote +:+ kv.2 +:+ quote.

(** The text of a flat JSON object with string values. *)
Definition jsonObject (fields : list (string * string)) : string :=
  "{" +:+ String.concat "," (map jsonField fields) +:+ "}".

Definition opaqueText : string :=
  jsonObject [("registry", "r.io"); ("username", "u");
              ("userNameProviderType", "Opaque"); ("password", "p");
              ("passwordProviderType", "opaque")].

Definition opaqueCred : graph.RegistryCredential :=
  graph.mkRegistryCredential "r.io" "u" "Opaque" "p" "opaque" "" "".

Definition opaqueNoUserText : string :=
  jsonObject [("registry", "r.io"); ("userNameProviderType", "opaque");
              ("password", "p"); ("passwordProviderType", "opaque");
              ("identity", "id")].

Definition opaqueNoUserCred : graph.RegistryCredential :=
  graph.mkRegistryCredential "r.io" "" "opaque" "p" "opaque" "id" "".

Definition vaultText : string :=
  jsonObject [("registry", "r.io"); ("username", "u");
              ("userNameProviderType", "opaque"); ("password", "kv-pass");
              ("passwordProviderType", "vaultsecret"); ("identity", "id");
              ("armResource", "/subscriptions/s")].

Definition vaultCred : graph.RegistryCredential :=
  graph.mkRegistryCredential "r.io" "u" "opaque" "kv-pass" "vaultsecret" "id"
    "/subscriptions/s".

Definition vaultFooText : string :=
  jsonObject [("registry", "r.io"); ("username", "kv-user");
              ("userNameProviderType", "VaultSecret"); ("password", "p");
              ("passwordProviderType", "foo"); ("identity", "id")].

Definition vaultFooCred : graph.RegistryCredential :=
  graph.mkRegistryCredential "r.io" "kv-user" "VaultSecret" "p" "foo" "id" "".

Definition msiText : string :=
  jsonObject [("registry", "r.io"); ("username", "u"); ("password", "p");
              ("identity", "id"); ("armResource", "/subscriptions/s")].

Definition msiCred : graph.RegistryCredential :=
  graph.mkRegistryCredential "r.io" "u" "" "p" "" "id" "/subscriptions/s".

Definition msiNoIdentityText : string :=
  jsonObject [("registry", "r.io"); ("userNameProviderType", "");
              ("passwordProviderType", "")].

Definition msiNoIdentityCred : graph.RegistryCredential :=
  graph.mkRegistryCredential "r.io" "" "" "" "" "" "".

Definition halfOpaqueText : string :=
  jsonObject [("registry", "r.io"); ("username", "u");
              ("userNameProviderType", "opaque"); ("password", "p")].

Definition halfOpaqueCred : graph.RegistryCredential :=
  graph.mkRegistryCredential "r.io" "u" "opaque" "p" "" "" "".

Definition noRegistryText : string :=
  jsonObject [("username", "u"); ("userNameProviderType", "opaque");
              ("password", "p"); ("passwordProviderType", "opaque")].

Definition noRegistryCred : graph.RegistryCredential :=
  graph.mkRegistryCredential "" "u" "opaque" "p" "opaque" "" "".

(** What [json.Unmarshal] decodes the texts above to. *)
Definition decodings : list (string * graph.RegistryCredential) :=
  [(opaqueText, opaqueCred); (opaqueNoUserText, opaqueNoUserCred);
   (vaultText, vaultCred); (vaultFooText, vaultFooCred);
   (msiText, msiCred); (msiNoIdentityText, msiNoIdentityCred);
   (halfOpaqueText, halfOpaqueCred); (noRegistryText, noRegistryCred);
   ("{}", graph.zeroRegistryCredential)].

Fixpoint assoc (key : string) (table : list (string * graph.RegistryCredential))
  : option graph.RegistryCredential :=
  match table with
  | [] => None
  | (k, v) :: table' => if String.eqb key k then Some v else assoc key table'
  end.

(** A codec that knows the texts above and refuses every other text. *)
Definition Unmarshal (str : string) (cred : graph.RegistryCredential)
  : graph.RegistryCredential * option error :=
  match assoc str decodings with
  | Some decoded => (decoded, None)
  | None => (cred, Some (New "unexpected end of JSON input"))
  end.

Definition json : graph.JSON := {| graph.json_Unmarshal := Unmarshal |}.

(** The sample type tags are ASCII, where [strings.ToLower] does not reach
    the Unicode mapping. *)
Definition unicode : Unicode := {| unicodeToLower := fun s => s |}.

Definition classify : string -> option graph.RegistryCredential * option error :=
  @graph.CreateRegistryCredentialFromString unicode json.

End sample.

(** An image reference store, a credential table and a registry. *)

Module sampleWorld.

Import errors builder.

Definition packages : Packages :=
  {| context_Context := unit;
     http_Client := unit;
     http_DefaultClient := tt;
     reference_Reference := string;
     Network := nat |}.

(** A reference grammar that refuses a path with an empty repository, and a
    registry that refuses the repository [missing], serves every other
    reference with one digest and counts the requests it gets. *)
Definition parse (path : string) : result string :=
  if String.eqb path "r.io/:latest" then Err (New "invalid reference format")
  else Ok path.

Definition registry (resolver : @Resolver packages) (ctx : unit)
  (ref : string) (requests : nat)
  : result (string * ocispec.Descriptor) * nat :=
  if String.eqb ref "r.io/missing:latest" then
    (Err (New "not found"), S requests)
  else (Ok (ref, ocispec.mkDescriptor "sha256:0123"), S requests).

Definition collaborators : @Collaborators packages :=
  @Build_Collaborators packages
    "scratch:latest" parse (fun fullRef : string => fullRef) registry.

Definition appRef : image.Reference :=
  image.mkReference "r.io" "app" "" "" "r.io/app".

Definition pinnedRef : image.Reference :=
  image.mkReference "r.io" "app" "v1" "sha256:abcd" "r.io/app:v1".

Definition scratchRef : image.Reference :=
  image.mkReference "" "scratch" "latest" "" "scratch:latest".

Definition privateRef : image.Reference :=
  image.mkReference "private.io" "app" "v2" "" "private.io/app:v2".

Definition missingRef : image.Reference :=
  image.mkReference "r.io" "missing" "" "" "r.io/missing".

Definition noRepositoryRef : image.Reference :=
  image.mkReference "r.io" "" "" "" "r.io/".

Definition halfResolved : login.ResolvedRegistryCred :=
  login.mkResolvedRegistryCred (login.mkSecret "user") (login.mkSecret "").

Definition resolved : login.ResolvedRegistryCred :=
  login.mkResolvedRegistryCred (login.mkSecret "user") (login.mkSecret "pass").

Definition table : gmap string login.ResolvedRegistryCred :=
  <["private.io" := halfResolved]> (<["secure.io" := resolved]> ∅).

Definition structs (p : ptr) : image.Reference :=
  match p with
  | 0 => appRef
  | 1 => pinnedRef
  | 2 => scratchRef
  | 3 => privateRef
  | 4 => missingRef
  | _ => noRepositoryRef
  end.

Definition world : @World packages :=
  @mkWorld packages structs (fun _ => table) 0 [].

Definition helper : remoteDigest := NewRemoteDigest (Some 0).

(** The resolver of a call that found no credential entry. *)
Definition anonymous : @Resolver packages :=
  @mkResolver packages (@mkResolverOptions packages tt None).

Definition populate (ref : option ptr)
  : @World packages -> option error * @World packages :=
  @PopulateDigest packages collaborators helper tt ref.

End sampleWorld.

(** More inputs: the opaque credential with its type tags in capitals and
    in the form the classifier returns, and a reference to a registry with
    resolved credentials. *)

Module sampleMore.

Import errors builder.

Definition shoutedOpaqueText : string :=
  sample.jsonObject [("registry", "r.io"); ("username", "u");
                     ("userNameProviderType", "OPAQUE"); ("password", "p");
                     ("passwordProviderType", "OPAQUE")].

Definition shoutedOpaqueCred : graph.RegistryCredential :=
  graph.mkRegistryCredential "r.io" "u" "OPAQUE" "p" "OPAQUE" "" "".

Definition loweredOpaqueText : string :=
  sample.jsonObject [("registry", "r.io"); ("username", "u");
                     ("userNameProviderType", "opaque"); ("password", "p");
                     ("passwordProviderType", "opaque")].

Definition loweredOpaqueCred : graph.RegistryCredential :=
  graph.mkRegistryCredential "r.io" "u" "opaque" "p" "opaque" "" "".

(** The codec of [sample], which knows these two texts as well. *)
Definition Unmarshal (str : string) (cred : graph.RegistryCredential)
  : graph.RegistryCredential * option error :=
  if String.eqb str shoutedOpaqueText then (shoutedOpaqueCred, None)
  else if String.eqb str loweredOpaqueText then (loweredOpaqueCred, None)
  else sample.Unmarshal str cred.

Definition json : graph.JSON := {| graph.json_Unmarshal := Unmarshal |}.

Definition classify : string -> option graph.RegistryCredential * option error :=
  @graph.CreateRegistryCredentialFromString sample.unicode json.

Definition secureRef : image.Reference :=
  image.mkReference "secure.io" "app" "v3" "" "secure.io/app:v3".

Definition secureWorld : @World sampleWorld.packages :=
  @mkWorld sampleWorld.packages (fun _ => secureRef)
    (fun _ => sampleWorld.table) 0 [].

End sampleMore.

(** * Properties *)

(** ** Strings *)

Lemma eqb_empty_false (s : string) : s <> "" -> String.eqb s "" = false.
Proof. intros Hs. now apply String.eqb_neq. Qed.

Lemma ToLower_empty `{Unicode} : ToLower "" = "".
Proof. reflexivity. Qed.

Lemma append_empty_r (s : string) : s +:+ "" = s.
Proof.
  induction s as [| c s IH]; [reflexivity |].
  change (String c (s +:+ "") = String c s). now rewrite IH.
Qed.

Lemma append_assoc (s t u : string) : (s +:+ t) +:+ u = s +:+ t +:+ u.
Proof.
  induction s as [| c s IH]; [reflexivity |].
  change (String c ((s +:+ t) +:+ u) = String c (s +:+ t +:+ u)).
  now rewrite IH.
Qed.

(** A string of ASCII bytes with no capital letter is its own lowercase
    form: such a type tag reaches the result byte for byte. *)
Lemma mapBytes_fixed (f : ascii -> ascii) (s : string) :
  (forall c, In c (list_ascii_of_string s) -> f c = c) -> mapBytes f s = s.
Proof.
  induction s as [| c s IH]; cbn; intros Hfix; [reflexivity |].
  rewrite (Hfix c) by now left. rewrite IH; [reflexivity |].
  intros c' Hin. apply Hfix. now right.
Qed.

Lemma ToLower_lowercase `{Unicode} (s : string) :
  isASCII s = true ->
  (forall c, In c (list_ascii_of_string s) -> isUpper c = false) ->
  ToLower s = s.
Proof.
  intros Hascii Hlower. unfold ToLower. rewrite Hascii.
  apply mapBytes_fixed. intros c Hin. unfold lowerByte.
  now rewrite (Hlower c Hin).
Qed.

Example ToLower_mixed_case `{Unicode} :
  ToLower "Opaque" = "opaque" /\ ToLower "VAULTSECRET" = "vaultsecret".
Proof. split; reflexivity. Qed.

(** The path [getReferencePath] formats. *)
Lemma Sprintf_path (registry repository tag : string) :
  Sprintf "%s:%s" [Sprintf "%s/%s" [registry; repository]; tag]
  = registry +:+ "/" +:+ repository +:+ ":" +:+ tag.
Proof.
  cbn. rewrite !append_empty_r, append_assoc. reflexivity.
Qed.

(** ** Equality of credentials *)

Lemma Equals_eq (s t : option graph.RegistryCredential) :
  graph.Equals s t = true <-> s = t.
Proof.
  destruct s as [[r u ut pw pt i a] |], t as [[r' u' ut' pw' pt' i' a'] |];
    cbn; try (split; congruence).
  rewrite !andb_true_iff, !String.eqb_eq. split.
  - intros [[[[[[-> ->] ->] ->] ->] ->] ->]. reflexivity.
  - intros [= -> -> -> -> -> -> ->]. tauto.
Qed.

Lemma Equals_refl (s : option graph.RegistryCredential) : graph.Equals s s = true.
Proof. now apply Equals_eq. Qed.

Lemma Equals_sym (s t : option graph.RegistryCredential) :
  graph.Equals s t = graph.Equals t s.
Proof.
  destruct (graph.Equals s t) eqn:Hst, (graph.Equals t s) eqn:Hts;
    try reflexivity.
  - apply Equals_eq in Hst. subst t. now rewrite Equals_refl in Hts.
  - apply Equals_eq in Hts. subst t. now rewrite Equals_refl in Hst.
Qed.

Lemma Equals_nil (t : graph.RegistryCredential) :
  graph.Equals None None = true
  /\ graph.Equals None (Some t) = false
  /\ graph.Equals (Some t) None = false.
Proof. repeat split. Qed.

(** ** The credential classifier *)

Section Classifier.

Import graph.

Context `{Unicode} `{JSON}.

Variable str : string.
Variable cred : RegistryCredential.

(** The input deserializes, to [cred]. *)
Hypothesis Hdecoded : json_Unmarshal str zeroRegistryCredential = (cred, None).

Ltac start := unfold CreateRegistryCredentialFromString; rewrite Hdecoded.

Lemma create_no_registry :
  Registry cred = "" ->
  CreateRegistryCredentialFromString str = (None, Some errInvalidRegName).
Proof. intros Hr. start. rewrite Hr. reflexivity. Qed.

Lemma create_opaque :
  Registry cred <> "" ->
  ToLower (UsernameType cred) = Opaque ->
  ToLower (PasswordType cred) = Opaque ->
  CreateRegistryCredentialFromString str
  = if String.eqb (Username cred) "" then (None, Some errInvalidUsername)
    else if String.eqb (Password cred) "" then (None, Some errInvalidPassword)
    else (Some {| Registry := Registry cred;
                  Username := Username cred;
                  UsernameType := Opaque;
                  Password := Password cred;
                  PasswordType := Opaque;
                  Identity := "";
                  ArmResource := "" |}, None).
Proof.
  intros Hr Hu Hp. start. rewrite Hu, Hp, (eqb_empty_false _ Hr).
  reflexivity.
Qed.

Lemma create_vault :
  Registry cred <> "" ->
  ToLower (UsernameType cred) = VaultSecret
  \/ ToLower (PasswordType cred) = VaultSecret ->
  CreateRegistryCredentialFromString str
  = if String.eqb (Username cred) "" then (None, Some errInvalidUsername)
    else if String.eqb (Password cred) "" then (None, Some errInvalidPassword)
    else if String.eqb (Identity cred) "" then (None, Some errInvalidIdentity)
    else (Some {| Registry := Registry cred;
                  Username := Username cred;
                  UsernameType := ToLower (UsernameType cred);
                  Password := Password cred;
                  PasswordType := ToLower (PasswordType cred);
                  Identity := Identity cred;
                  ArmResource := "" |}, None).
Proof.
  intros Hr Hv. start. rewrite (eqb_empty_false _ Hr).
  destruct Hv as [Hv | Hv]; rewrite Hv; cbn [String.eqb Ascii.eqb Bool.eqb VaultSecret Opaque andb orb];
    rewrite ?andb_false_r, ?orb_true_r; reflexivity.
Qed.

Lemma create_msi :
  Registry cred <> "" ->
  ToLower (UsernameType cred) = "" ->
  ToLower (PasswordType cred) = "" ->
  CreateRegistryCredentialFromString str
  = if String.eqb (Identity cred) "" then (None, Some errInvalidIdentity)
    else if String.eqb (ArmResource cred) "" then
      (None, Some errInvalidArmResourceID)
    else (Some {| Registry := Registry cred;
                  Username := "";
                  UsernameType := "";
                  Password := "";
                  PasswordType := "";
                  Identity := Identity cred;
                  ArmResource := ArmResource cred |}, None).
Proof.
  intros Hr Hu Hp. start. rewrite Hu, Hp, (eqb_empty_false _ Hr).
  reflexivity.
Qed.

End Classifier.

Section ClassifierSpec.

Import graph.

Context `{Unicode} `{JSON}.

Implicit Types (str : string) (cred : RegistryCredential).

(** C1. A deserializable input with a non-empty registry whose two lowercased
    type fields are both "opaque" is accepted if and only if its username and
    its password are non-empty; an empty username fails with
    [errInvalidUsername], else an empty password with [errInvalidPassword];
    the credential returned keeps the registry, the username, the password
    and the two lowercased type tags, with identity and armResource empty. *)
Theorem opaque_credential str cred :
  json_Unmarshal str zeroRegistryCredential = (cred, None) ->
  Registry cred <> "" ->
  ToLower (UsernameType cred) = "opaque" ->
  ToLower (PasswordType cred) = "opaque" ->
  let out := CreateRegistryCredentialFromString str in
  (out.2 = None <-> Username cred <> "" /\ Password cred <> "")
  /\ (Username cred = "" -> out = (None, Some errInvalidUsername))
  /\ (Username cred <> "" -> Password cred = "" ->
      out = (None, Some errInvalidPassword))
  /\ (out.2 = None ->
      out.1 = Some {| Registry := Registry cred;
                      Username := Username cred;
                      UsernameType := ToLower (UsernameType cred);
                      Password := Password cred;
                      PasswordType := ToLower (PasswordType cred);
                      Identity := "";
                      ArmResource := "" |}).
Proof.
  intros Hdec Hr Hu Hp out. subst out.
  rewrite (create_opaque str cred Hdec Hr Hu Hp), Hu, Hp.
  destruct (String.eqb_spec (Username cred) "") as [Hn | Hn];
    [| destruct (String.eqb_spec (Password cred) "") as [Hw | Hw]];
    cbn [fst snd]; repeat split; intros; try congruence; tauto.
Qed.

(** C2. A deserializable input with a non-empty registry where at least one
    lowercased type field is "vaultsecret" needs a username, a password and an
    identity, all non-empty, and fails with [errInvalidUsername],
    [errInvalidPassword] or [errInvalidIdentity], checked in that order; the
    credential returned keeps the registry, the username, the password, both
    lowercased type tags and the identity, with armResource empty. *)
Theorem vault_secret_credential str cred :
  json_Unmarshal str zeroRegistryCredential = (cred, None) ->
  Registry cred <> "" ->
  ToLower (UsernameType cred) = "vaultsecret"
  \/ ToLower (PasswordType cred) = "vaultsecret" ->
  let out := CreateRegistryCredentialFromString str in
  (out.2 = None <->
   Username cred <> "" /\ Password cred <> "" /\ Identity cred <> "")
  /\ (Username cred = "" -> out = (None, Some errInvalidUsername))
  /\ (Username cred <> "" -> Password cred = "" ->
      out = (None, Some errInvalidPassword))
  /\ (Username cred <> "" -> Password cred <> "" -> Identity cred = "" ->
      out = (None, Some errInvalidIdentity))
  /\ (out.2 = None ->
      out.1 = Some {| Registry := Registry cred;
                      Username := Username cred;
                      UsernameType := ToLower (UsernameType cred);
                      Password := Password cred;
                      PasswordType := ToLower (PasswordType cred);
                      Identity := Identity cred;
                      ArmResource := "" |}).
Proof.
  intros Hdec Hr Hv out. subst out.
  rewrite (create_vault str cred Hdec Hr Hv).
  destruct (String.eqb_spec (Username cred) "") as [Hn | Hn];
    [| destruct (String.eqb_spec (Password cred) "") as [Hw | Hw];
       [| destruct (String.eqb_spec (Identity cred) "") as [Hi | Hi]]];
    cbn [fst snd]; repeat split; intros; try congruence; tauto.
Qed.

(** C3. A deserializable input with an empty registry fails with
    [errInvalidRegName], whatever its other fields hold. *)
Theorem empty_registry_rejected str cred :
  json_Unmarshal str zeroRegistryCredential = (cred, None) ->
  Registry cred = "" ->
  CreateRegistryCredentialFromString str = (None, Some errInvalidRegName).
Proof.
  intros Hdec Hr. unfold CreateRegistryCredentialFromString.
  rewrite Hdec, Hr. reflexivity.
Qed.

(** C4. A deserializable input with a non-empty registry whose two type
    fields are both empty needs an identity and an armResource, both
    non-empty, and fails with [errInvalidIdentity] (checked first) or
    [errInvalidArmResourceID]; the credential returned holds the registry,
    the identity and the armResource only: its username, password and type
    fields are empty whatever the input held. *)
Theorem managed_identity_credential str cred :
  json_Unmarshal str zeroRegistryCredential = (cred, None) ->
  Registry cred <> "" ->
  UsernameType cred = "" ->
  PasswordType cred = "" ->
  let out := CreateRegistryCredentialFromString str in
  (out.2 = None <-> Identity cred <> "" /\ ArmResource cred <> "")
  /\ (Identity cred = "" -> out = (None, Some errInvalidIdentity))
  /\ (Identity cred <> "" -> ArmResource cred = "" ->
      out = (None, Some errInvalidArmResourceID))
  /\ (out.2 = None ->
      out.1 = Some {| Registry := Registry cred;
                      Username := "";
                      UsernameType := "";
                      Password := "";
                      PasswordType := "";
                      Identity := Identity cred;
                      ArmResource := ArmResource cred |}).
Proof.
  intros Hdec Hr Hu Hp out. subst out.
  rewrite (create_msi str cred Hdec Hr); [| rewrite ?Hu, ?Hp; reflexivity ..].
  destruct (String.eqb_spec (Identity cred) "") as [Hi | Hi];
    [| destruct (String.eqb_spec (ArmResource cred) "") as [Ha | Ha]];
    cbn [fst snd]; repeat split; intros; try congruence; tauto.
Qed.

(** C5. A deserializable input with a non-empty registry whose lowercased
    type fields are not both "opaque", neither "vaultsecret", and not both
    empty fails with [errCouldNotClassify], and no credential is returned. *)
Theorem unclassifiable_rejected str cred :
  json_Unmarshal str zeroRegistryCredential = (cred, None) ->
  Registry cred <> "" ->
  ~ (ToLower (UsernameType cred) = "opaque"
     /\ ToLower (PasswordType cred) = "opaque") ->
  ToLower (UsernameType cred) <> "vaultsecret" ->
  ToLower (PasswordType cred) <> "vaultsecret" ->
  ~ (ToLower (UsernameType cred) = "" /\ ToLower (PasswordType cred) = "") ->
  CreateRegistryCredentialFromString str = (None, Some errCouldNotClassify).
Proof.
  intros Hdec Hr Hopaque Hvu Hvp Hmsi.
  unfold CreateRegistryCredentialFromString.
  rewrite Hdec, (eqb_empty_false _ Hr).
  apply String.eqb_neq in Hvu, Hvp. unfold VaultSecret. rewrite Hvu, Hvp.
  cbn [orb]. unfold Opaque.
  destruct (String.eqb_spec (ToLower (UsernameType cred)) "opaque") as [Hu | Hu];
    destruct (String.eqb_spec (ToLower (PasswordType cred)) "opaque") as [Hp | Hp];
    cbn [andb]; try tauto;
    destruct (String.eqb_spec (ToLower (UsernameType cred)) "") as [Hu' | Hu'];
    destruct (String.eqb_spec (ToLower (PasswordType cred)) "") as [Hp' | Hp'];
    cbn [andb]; try tauto; reflexivity.
Qed.

(** C9. A deserializable input with a non-empty registry where one lowercased
    type field is "vaultsecret" and the other is any string [other] takes the
    vault-secret branch: it never fails with [errCouldNotClassify], it is
    accepted exactly when username, password and identity are non-empty, it
    fails with one of the three missing-field errors otherwise, and the
    credential returned carries the two lowercased type fields as its type
    tags, "vaultsecret" and [other]. *)
Theorem vault_secret_any_other_tag str cred (other : string) :
  json_Unmarshal str zeroRegistryCredential = (cred, None) ->
  Registry cred <> "" ->
  (ToLower (UsernameType cred) = "vaultsecret"
   /\ ToLower (PasswordType cred) = other)
  \/ (ToLower (UsernameType cred) = other
      /\ ToLower (PasswordType cred) = "vaultsecret") ->
  let out := CreateRegistryCredentialFromString str in
  out.2 <> Some errCouldNotClassify
  /\ (out.2 = None <->
      Username cred <> "" /\ Password cred <> "" /\ Identity cred <> "")
  /\ (out.2 <> None ->
      out = (None, Some errInvalidUsername)
      \/ out = (None, Some errInvalidPassword)
      \/ out = (None, Some errInvalidIdentity))
  /\ (out.2 = None ->
      exists c, out.1 = Some c
        /\ Username c = Username cred /\ Password c = Password cred
        /\ Identity c = Identity cred
        /\ UsernameType c = ToLower (UsernameType cred)
        /\ PasswordType c = ToLower (PasswordType cred)
        /\ ((UsernameType c = "vaultsecret" /\ PasswordType c = other)
            \/ (UsernameType c = other /\ PasswordType c = "vaultsecret"))).
Proof.
  intros Hdec Hr Hv out. subst out.
  assert (Hv' : ToLower (UsernameType cred) = VaultSecret
                \/ ToLower (PasswordType cred) = VaultSecret)
    by (unfold VaultSecret; tauto).
  rewrite (create_vault str cred Hdec Hr Hv').
  destruct (String.eqb_spec (Username cred) "") as [Hn | Hn];
    [| destruct (String.eqb_spec (Password cred) "") as [Hw | Hw];
       [| destruct (String.eqb_spec (Identity cred) "") as [Hi | Hi]]];
    cbn [fst snd]; (split; [discriminate |]);
    (split; [intuition congruence |]);
    (split;
     [ intros Hfail;
       first [ left; reflexivity | right; left; reflexivity
             | right; right; reflexivity | congruence ]
     | intros Hok;
       first [ discriminate
             | eexists; split; [reflexivity |]; cbn; tauto ] ]).
Qed.

End ClassifierSpec.

(** ** The digest resolver *)

Section Resolver.

Import errors builder.

Context `{Collaborators}.

Implicit Types (d : remoteDigest) (ctx : context_Context) (ref : option ptr)
  (p : ptr) (w : World) (opts : ResolverOptions).

(** [getReferencePath] only reads the store.  The path it has parsed is
    registry/repository:tag, with the tag [latest] for an empty tag. *)
Lemma getReferencePath_path p w :
  getReferencePath p w
  = (let r := references w p in
     match reference_Parse
             (image.Registry r +:+ "/" +:+ image.Repository r +:+ ":"
              +:+ (if String.eqb (image.Tag r) "" then "latest" else image.Tag r))
     with
     | Ok fullRef => (reference_String fullRef, None)
     | Err e =>
         ("", Some (Wrap e ("Failed to parse the reference "
                            +:+ image.Reference_ r)))
     end, w).
Proof.
  unfold getReferencePath, bind, load. cbv zeta. rewrite Sprintf_path.
  destruct (String.eqb (image.Tag (references w p)) ""); cbn [negb];
    destruct (reference_Parse _) as [fullRef | e]; unfold ret, Wrapf; cbn;
    rewrite ?append_empty_r; reflexivity.
Qed.

(** The three ways through the statements after the credential block: the
    reference does not parse; the registry refuses it; the registry answers
    and the digest is stored. *)
Lemma resolveAndStore_paths opts ctx p w :
  (exists e,
      resolveAndStore opts ctx p w
      = (Some (Wrapf e "Failed to parse the reference %s"
                 [image.Reference_ (references w p)]), w))
  \/ (exists imageRef e n,
         docker_Resolve (docker_NewResolver opts) ctx imageRef (network w)
         = (Err e, n)
         /\ resolveAndStore opts ctx p w
            = (Some (Wrapf e "Failed to Resolve the reference '%s'"
                       [image.Reference_ (references w p)]),
               {| references := references w;
                  credentials := credentials w;
                  network := n;
                  trace := trace w
                           ++ [ResolveCalled (docker_NewResolver opts) ctx imageRef] |}))
  \/ (exists imageRef name desc n,
         docker_Resolve (docker_NewResolver opts) ctx imageRef (network w)
         = (Ok (name, desc), n)
         /\ resolveAndStore opts ctx p w
            = (None,
               {| references :=
                    <[p := image.setDigest (references w p) (ocispec.Digest desc)]>
                      (references w);
                  credentials := credentials w;
                  network := n;
                  trace := trace w
                           ++ [ResolveCalled (docker_NewResolver opts) ctx imageRef;
                               DigestStored p (ocispec.Digest desc)] |})).
Proof.
  unfold resolveAndStore, getReferencePath, bind, load.
  destruct (reference_Parse _) as [fullRef | e]; unfold ret.
  - right. unfold Resolve.
    destruct (docker_Resolve _ ctx (reference_String fullRef) (network w))
      as [[[name desc] | e] n] eqn:Hresolve.
    + right. exists (reference_String fullRef), name, desc, n.
      split; [exact Hresolve |].
      unfold storeDigest, ocispec.Digest_String. cbn.
      rewrite <- app_assoc. reflexivity.
    + left. exists (reference_String fullRef), e, n.
      split; [exact Hresolve | reflexivity].
  - left. exists e. reflexivity.
Qed.

(** The call returns at once, with the store as it was. *)
Lemma PopulateDigest_nil d ctx w : PopulateDigest d ctx None w = (None, w).
Proof. reflexivity. Qed.

Lemma PopulateDigest_has_digest d ctx p w :
  image.Digest (references w p) <> "" ->
  PopulateDigest d ctx (Some p) w = (None, w).
Proof.
  intros Hd. unfold PopulateDigest, bind, load.
  rewrite (eqb_empty_false _ Hd). reflexivity.
Qed.

Lemma PopulateDigest_no_base_image d ctx p w :
  image.Reference_ (references w p) = NoBaseImageSpecifierLatest ->
  PopulateDigest d ctx (Some p) w = (None, w).
Proof.
  intros Hm. unfold PopulateDigest, bind, load.
  rewrite Hm, String.eqb_refl. now destruct (negb _).
Qed.

(** Past the short circuits the call is its credential block followed by
    [resolveAndStore]. *)
Lemma PopulateDigest_past_short_circuits d ctx p w :
  image.Digest (references w p) = "" ->
  image.Reference_ (references w p) <> NoBaseImageSpecifierLatest ->
  PopulateDigest d ctx (Some p) w
  = match (lookupCreds (registryCreds d) (image.Registry (references w p)) w).1 with
    | Some cred =>
        if String.eqb (login.ResolvedValue (login.Username cred)) ""
           || String.eqb (login.ResolvedValue (login.Password cred)) ""
        then
          (Some (Errorf "error fetching credentials for '%s'"
                   [image.Registry (references w p)]), w)
        else
          resolveAndStore
            {| Client := http_DefaultClient;
               Credentials :=
                 Some (fun _ : string =>
                         (login.ResolvedValue (login.Username cred),
                          login.ResolvedValue (login.Password cred),
                          None)) |} ctx p w
    | None =>
        resolveAndStore {| Client := http_DefaultClient; Credentials := None |}
          ctx p w
    end.
Proof.
  intros Hd Hm. unfold PopulateDigest, bind, load.
  rewrite Hd. apply String.eqb_neq in Hm. rewrite Hm. cbn [String.eqb negb].
  unfold lookupCreds. cbn [fst].
  destruct (match registryCreds d with Some l => _ | None => None end)
    as [cred |]; [| reflexivity].
  destruct (_ || _); reflexivity.
Qed.

(** Every call goes one of four ways: it returns nil and leaves the store as
    it was; it returns an error and leaves the store as it was; it returns an
    error after the registry refused; it returns nil after the registry
    answered and the digest was stored. *)
Lemma PopulateDigest_paths d ctx ref w :
  PopulateDigest d ctx ref w = (None, w)
  \/ (exists e, PopulateDigest d ctx ref w = (Some e, w))
  \/ (exists resolver imageRef e e' n,
         docker_Resolve resolver ctx imageRef (network w) = (Err e, n)
         /\ PopulateDigest d ctx ref w
            = (Some e',
               {| references := references w;
                  credentials := credentials w;
                  network := n;
                  trace := trace w ++ [ResolveCalled resolver ctx imageRef] |}))
  \/ (exists p resolver imageRef name desc n,
         ref = Some p
         /\ docker_Resolve resolver ctx imageRef (network w) = (Ok (name, desc), n)
         /\ PopulateDigest d ctx ref w
            = (None,
               {| references :=
                    <[p := image.setDigest (references w p) (ocispec.Digest desc)]>
                      (references w);
                  credentials := credentials w;
                  network := n;
                  trace := trace w
                           ++ [ResolveCalled resolver ctx imageRef;
                               DigestStored p (ocispec.Digest desc)] |})).
Proof.
  destruct ref as [p |]; [| left; apply PopulateDigest_nil].
  destruct (String.eqb_spec (image.Digest (references w p)) "") as [Hd | Hd];
    [| left; now apply PopulateDigest_has_digest].
  destruct (String.eqb_spec (image.Reference_ (references w p))
              NoBaseImageSpecifierLatest) as [Hm | Hm];
    [left; now apply PopulateDigest_no_base_image |].
  rewrite (PopulateDigest_past_short_circuits d ctx p w Hd Hm).
  assert (Hrest : forall opts,
    (exists e, resolveAndStore opts ctx p w = (Some e, w))
    \/ (exists resolver imageRef e e' n,
           docker_Resolve resolver ctx imageRef (network w) = (Err e, n)
           /\ resolveAndStore opts ctx p w
              = (Some e',
                 {| references := references w;
                    credentials := credentials w;
                    network := n;
                    trace := trace w ++ [ResolveCalled resolver ctx imageRef] |}))
    \/ (exists q resolver imageRef name desc n,
           Some p = Some q
           /\ docker_Resolve resolver ctx imageRef (network w) = (Ok (name, desc), n)
           /\ resolveAndStore opts ctx p w
              = (None,
                 {| references :=
                      <[q := image.setDigest (references w q) (ocispec.Digest desc)]>
                        (references w);
                    credentials := credentials w;
                    network := n;
                    trace := trace w
                             ++ [ResolveCalled resolver ctx imageRef;
                                 DigestStored q (ocispec.Digest desc)] |}))).
  { intros opts.
    destruct (resolveAndStore_paths opts ctx p w)
      as [[e He] | [(imageRef & e & n & Hr & He)
                   | (imageRef & name & desc & n & Hr & He)]].
    - left. eauto.
    - right. left. exists (docker_NewResolver opts), imageRef, e. eauto.
    - right. right.
      exists p, (docker_NewResolver opts), imageRef, name, desc, n. eauto. }
  right.
  destruct (lookupCreds _ _ w).1 as [cred |]; [| apply Hrest].
  destruct (_ || _); [left; eauto | apply Hrest].
Qed.

End Resolver.

Section ResolverSpec.

Import errors builder.

Context `{Collaborators}.

Implicit Types (d : remoteDigest) (ctx : context_Context) (ref : option ptr)
  (p : ptr) (w : World).

(** C6. When the reference is nil, or its digest is already set, or its
    reference string is the reserved no-base-image marker, [PopulateDigest]
    returns nil and leaves the whole store as it was: no field of the
    reference is written and, the trace being the same, the registry client
    is not called; a second call does the same. *)
Theorem PopulateDigest_short_circuit d ctx ref w :
  ref = None
  \/ (exists p, ref = Some p
        /\ (image.Digest (references w p) <> ""
            \/ image.Reference_ (references w p) = NoBaseImageSpecifierLatest)) ->
  PopulateDigest d ctx ref w = (None, w)
  /\ (PopulateDigest d ctx ref ;;; PopulateDigest d ctx ref) w = (None, w).
Proof.
  intros Hshort.
  assert (Honce : PopulateDigest d ctx ref w = (None, w)).
  { destruct Hshort as [-> | (p & -> & [Hd | Hm])].
    - apply PopulateDigest_nil.
    - now apply PopulateDigest_has_digest.
    - now apply PopulateDigest_no_base_image. }
  split; [exact Honce |].
  unfold bind. rewrite Honce. exact Honce.
Qed.

(** C7. Past the short circuits, when the credential table has an entry for
    the reference's registry whose resolved username or resolved password is
    empty, [PopulateDigest] fails with the error that names that registry and
    leaves the whole store as it was: the registry client is not called. *)
Theorem PopulateDigest_unresolved_credentials d ctx p (m : ptr)
    (cred : login.ResolvedRegistryCred) w :
  image.Digest (references w p) = "" ->
  image.Reference_ (references w p) <> NoBaseImageSpecifierLatest ->
  registryCreds d = Some m ->
  credentials w m !! image.Registry (references w p) = Some cred ->
  login.ResolvedValue (login.Username cred) = ""
  \/ login.ResolvedValue (login.Password cred) = "" ->
  PopulateDigest d ctx (Some p) w
  = (Some (New ("error fetching credentials for '"
                +:+ image.Registry (references w p) +:+ "'")), w).
Proof.
  intros Hd Hm Hmap Hentry Hempty.
  rewrite (PopulateDigest_past_short_circuits d ctx p w Hd Hm).
  unfold lookupCreds. rewrite Hmap. cbn [fst]. rewrite Hentry.
  destruct Hempty as [-> | ->]; cbn [String.eqb orb];
    rewrite ?orb_true_r; reflexivity.
Qed.

(** C10. Whatever the outcome, a call writes nothing of a reference but its
    digest: the credential tables are as they were, every reference keeps its
    registry, repository, tag and reference string, and a reference other
    than the argument is as it was. *)
Theorem PopulateDigest_frame d ctx ref w :
  let w' := (PopulateDigest d ctx ref w).2 in
  credentials w' = credentials w
  /\ (forall q : ptr,
        image.Registry (references w' q) = image.Registry (references w q)
        /\ image.Repository (references w' q) = image.Repository (references w q)
        /\ image.Tag (references w' q) = image.Tag (references w q)
        /\ image.Reference_ (references w' q) = image.Reference_ (references w q))
  /\ (forall q : ptr, ref <> Some q -> references w' q = references w q).
Proof.
  intros w'. subst w'.
  destruct (PopulateDigest_paths d ctx ref w)
    as [He | [[e He] | [(resolver & imageRef & e & e' & n & Hr & He)
                       | (p & resolver & imageRef & name & desc & n & -> & Hr & He)]]];
    rewrite He; cbn [fst snd credentials references]; try (repeat split; reflexivity).
  split; [reflexivity |]. split.
  - intros q. destruct (decide (p = q)) as [<- | Hne].
    + rewrite fn_lookup_insert. repeat split; reflexivity.
    + rewrite fn_lookup_insert_ne by exact Hne. repeat split; reflexivity.
  - intros q Hne. apply fn_lookup_insert_ne. congruence.
Qed.

End ResolverSpec.

(** ** The theorems on the concrete inputs *)

Lemma pair_of_projections {A B : Type} (x : A * B) (a : A) (b : B) :
  x.1 = a -> x.2 = b -> x = (a, b).
Proof. destruct x. cbn. congruence. Qed.

(** The spec's scenarios. *)
Example scenario_opaque :
  sample.classify sample.opaqueText
  = (Some (graph.mkRegistryCredential "r.io" "u" "opaque" "p" "opaque" "" ""),
     None).
Proof. vm_compute. reflexivity. Qed.

Example scenario_no_identity :
  sample.classify sample.msiNoIdentityText = (None, Some graph.errInvalidIdentity).
Proof. vm_compute. reflexivity. Qed.

Example scenario_empty_object :
  sample.classify "{}" = (None, Some graph.errInvalidRegName).
Proof. vm_compute. reflexivity. Qed.

Example scenario_malformed :
  sample.classify "{"
  = (None, Some (errors.Wrap (errors.New "unexpected end of JSON input")
                   "unable to unmarshal Credentials from string")).
Proof. vm_compute. reflexivity. Qed.

Lemma opaque_credential_witness :
  sample.Unmarshal sample.opaqueText graph.zeroRegistryCredential
  = (sample.opaqueCred, None)
  /\ graph.Registry sample.opaqueCred <> ""
  /\ sample.classify sample.opaqueText
     = (Some (graph.mkRegistryCredential "r.io" "u" "opaque" "p" "opaque" "" ""),
        None).
Proof.
  split; [reflexivity |]. split; [discriminate |].
  destruct (@opaque_credential sample.unicode sample.json
              sample.opaqueText sample.opaqueCred)
    as (Hiff & _ & _ & Hok);
    [reflexivity | discriminate | reflexivity | reflexivity |].
  assert (Hnil : (sample.classify sample.opaqueText).2 = None)
    by (apply Hiff; split; discriminate).
  apply pair_of_projections; [exact (Hok Hnil) | exact Hnil].
Defined.

Lemma vault_secret_credential_witness :
  sample.Unmarshal sample.vaultText graph.zeroRegistryCredential
  = (sample.vaultCred, None)
  /\ graph.Registry sample.vaultCred <> ""
  /\ sample.classify sample.vaultText
     = (Some (graph.mkRegistryCredential "r.io" "u" "opaque" "kv-pass"
                "vaultsecret" "id" ""), None).
Proof.
  split; [reflexivity |]. split; [discriminate |].
  destruct (@vault_secret_credential sample.unicode sample.json
              sample.vaultText sample.vaultCred)
    as (Hiff & _ & _ & _ & Hok);
    [reflexivity | discriminate | right; reflexivity |].
  assert (Hnil : (sample.classify sample.vaultText).2 = None)
    by (apply Hiff; repeat split; discriminate).
  apply pair_of_projections; [exact (Hok Hnil) | exact Hnil].
Defined.

Lemma empty_registry_rejected_witness :
  sample.Unmarshal sample.noRegistryText graph.zeroRegistryCredential
  = (sample.noRegistryCred, None)
  /\ graph.Registry sample.noRegistryCred = ""
  /\ sample.classify sample.noRegistryText
     = (None, Some graph.errInvalidRegName).
Proof.
  split; [reflexivity |]. split; [reflexivity |].
  apply (@empty_registry_rejected sample.unicode sample.json
           sample.noRegistryText sample.noRegistryCred);
    reflexivity.
Defined.

Lemma managed_identity_credential_witness :
  sample.Unmarshal sample.msiText graph.zeroRegistryCredential
  = (sample.msiCred, None)
  /\ graph.Username sample.msiCred = "u"
  /\ sample.classify sample.msiText
     = (Some (graph.mkRegistryCredential "r.io" "" "" "" "" "id"
                "/subscriptions/s"), None).
Proof.
  split; [reflexivity |]. split; [reflexivity |].
  destruct (@managed_identity_credential sample.unicode sample.json
              sample.msiText sample.msiCred)
    as (Hiff & _ & _ & Hok);
    [reflexivity | discriminate | reflexivity | reflexivity |].
  assert (Hnil : (sample.classify sample.msiText).2 = None)
    by (apply Hiff; split; discriminate).
  apply pair_of_projections; [exact (Hok Hnil) | exact Hnil].
Defined.

Lemma unclassifiable_rejected_witness :
  sample.Unmarshal sample.halfOpaqueText graph.zeroRegistryCredential
  = (sample.halfOpaqueCred, None)
  /\ graph.UsernameType sample.halfOpaqueCred = "opaque"
  /\ graph.PasswordType sample.halfOpaqueCred = ""
  /\ sample.classify sample.halfOpaqueText
     = (None, Some graph.errCouldNotClassify).
Proof.
  split; [reflexivity |]. split; [reflexivity |]. split; [reflexivity |].
  apply (@unclassifiable_rejected sample.unicode sample.json
           sample.halfOpaqueText sample.halfOpaqueCred).
  - reflexivity.
  - discriminate.
  - intros [_ Hp]. discriminate Hp.
  - discriminate.
  - discriminate.
  - intros [Hu _]. discriminate Hu.
Defined.

Lemma vault_secret_any_other_tag_witness :
  sample.Unmarshal sample.vaultFooText graph.zeroRegistryCredential
  = (sample.vaultFooCred, None)
  /\ graph.PasswordType sample.vaultFooCred = "foo"
  /\ (sample.classify sample.vaultFooText).2 = None
  /\ exists c, (sample.classify sample.vaultFooText).1 = Some c
       /\ graph.UsernameType c = "vaultsecret" /\ graph.PasswordType c = "foo".
Proof.
  split; [reflexivity |]. split; [reflexivity |].
  destruct (@vault_secret_any_other_tag sample.unicode sample.json
              sample.vaultFooText sample.vaultFooCred "foo")
    as (_ & Hiff & _ & Hok);
    [reflexivity | discriminate | left; split; reflexivity |].
  assert (Hnil : (sample.classify sample.vaultFooText).2 = None)
    by (apply Hiff; repeat split; discriminate).
  split; [exact Hnil |].
  destruct (Hok Hnil) as (c & Hc & _ & _ & _ & Hu & Hp & _).
  exists c. split; [exact Hc |]. split; [exact Hu | exact Hp].
Defined.

(** The spec's scenario: no credential entry for [r.io], so the registry is
    asked for [r.io/app:latest] without credentials, and its digest is
    stored. *)
Example scenario_unauthenticated :
  sampleWorld.populate (Some 0) sampleWorld.world
  = (None,
     @builder.mkWorld sampleWorld.packages
       (<[0 := image.mkReference "r.io" "app" "" "sha256:0123" "r.io/app"]>
          sampleWorld.structs)
       (fun _ => sampleWorld.table)
       1
       [builder.ResolveCalled sampleWorld.anonymous tt "r.io/app:latest";
        builder.DigestStored 0 "sha256:0123"]).
Proof. reflexivity. Qed.

Example scenario_registry_refuses :
  sampleWorld.populate (Some 4) sampleWorld.world
  = (Some (errors.Wrap (errors.New "not found")
             "Failed to Resolve the reference 'r.io/missing'"),
     @builder.mkWorld sampleWorld.packages
       sampleWorld.structs
       (fun _ => sampleWorld.table)
       1
       [builder.ResolveCalled sampleWorld.anonymous tt "r.io/missing:latest"]).
Proof. reflexivity. Qed.

Example scenario_invalid_reference :
  sampleWorld.populate (Some 5) sampleWorld.world
  = (Some (errors.Wrap (errors.New "invalid reference format")
             "Failed to parse the reference r.io/"),
     sampleWorld.world).
Proof. reflexivity. Qed.

Lemma PopulateDigest_short_circuit_witness :
  image.Digest (builder.references sampleWorld.world 1) = "sha256:abcd"
  /\ sampleWorld.populate (Some 1) sampleWorld.world = (None, sampleWorld.world)
  /\ sampleWorld.populate (Some 2) sampleWorld.world = (None, sampleWorld.world)
  /\ sampleWorld.populate None sampleWorld.world = (None, sampleWorld.world).
Proof.
  split; [reflexivity |]. split; [| split].
  - apply (@PopulateDigest_short_circuit sampleWorld.packages
             sampleWorld.collaborators sampleWorld.helper tt (Some 1)
             sampleWorld.world).
    right. exists 1. split; [reflexivity |]. left. discriminate.
  - apply (@PopulateDigest_short_circuit sampleWorld.packages
             sampleWorld.collaborators sampleWorld.helper tt (Some 2)
             sampleWorld.world).
    right. exists 2. split; [reflexivity |]. right. reflexivity.
  - apply (@PopulateDigest_short_circuit sampleWorld.packages
             sampleWorld.collaborators sampleWorld.helper tt None
             sampleWorld.world).
    left. reflexivity.
Defined.

Lemma PopulateDigest_unresolved_credentials_witness :
  builder.credentials sampleWorld.world 0 !! "private.io"
  = Some sampleWorld.halfResolved
  /\ login.ResolvedValue (login.Password sampleWorld.halfResolved) = ""
  /\ sampleWorld.populate (Some 3) sampleWorld.world
     = (Some (errors.New "error fetching credentials for 'private.io'"),
        sampleWorld.world).
Proof.
  split; [reflexivity |]. split; [reflexivity |].
  apply (@PopulateDigest_unresolved_credentials sampleWorld.packages
           sampleWorld.collaborators sampleWorld.helper tt 3 0
           sampleWorld.halfResolved sampleWorld.world).
  - reflexivity.
  - discriminate.
  - reflexivity.
  - reflexivity.
  - right. reflexivity.
Defined.

(** * Further properties of the classifier *)

Section ClassifierPaths.

Import graph.

Context `{Unicode} `{JSON}.

Implicit Types (str : string) (cred c : RegistryCredential).

Lemma create_malformed str cred (e : errors.error) :
  json_Unmarshal str zeroRegistryCredential = (cred, Some e) ->
  CreateRegistryCredentialFromString str
  = (None, Some (errors.Wrap e "unable to unmarshal Credentials from string")).
Proof.
  intros Hdec. unfold CreateRegistryCredentialFromString. now rewrite Hdec.
Qed.

Lemma create_unclassified str cred :
  json_Unmarshal str zeroRegistryCredential = (cred, None) ->
  Registry cred <> "" ->
  ~ (ToLower (UsernameType cred) = Opaque /\ ToLower (PasswordType cred) = Opaque) ->
  ToLower (UsernameType cred) <> VaultSecret ->
  ToLower (PasswordType cred) <> VaultSecret ->
  ~ (ToLower (UsernameType cred) = "" /\ ToLower (PasswordType cred) = "") ->
  CreateRegistryCredentialFromString str = (None, Some errCouldNotClassify).
Proof.
  intros Hdec Hr Hopaque Hvu Hvp Hmsi.
  unfold CreateRegistryCredentialFromString.
  rewrite Hdec, (eqb_empty_false _ Hr).
  apply String.eqb_neq in Hvu, Hvp. rewrite Hvu, Hvp. cbn [orb].
  destruct (String.eqb_spec (ToLower (UsernameType cred)) Opaque) as [Hu | Hu];
    destruct (String.eqb_spec (ToLower (PasswordType cred)) Opaque) as [Hp | Hp];
    cbn [andb]; try tauto;
    destruct (String.eqb_spec (ToLower (UsernameType cred)) "") as [Hu' | Hu'];
    destruct (String.eqb_spec (ToLower (PasswordType cred)) "") as [Hp' | Hp'];
    cbn [andb]; try tauto; reflexivity.
Qed.

(** Inversion of a successful call: the input decoded to some [cred] with a
    registry, and the credential was built by one of the three branches. *)
Lemma created_inv str c :
  (CreateRegistryCredentialFromString str).1 = Some c ->
  exists cred,
    json_Unmarshal str zeroRegistryCredential = (cred, None)
    /\ Registry cred <> ""
    /\ ((ToLower (UsernameType cred) = Opaque
         /\ ToLower (PasswordType cred) = Opaque
         /\ Username cred <> "" /\ Password cred <> ""
         /\ c = {| Registry := Registry cred;
                   Username := Username cred;
                   UsernameType := Opaque;
                   Password := Password cred;
                   PasswordType := Opaque;
                   Identity := "";
                   ArmResource := "" |})
        \/ ((ToLower (UsernameType cred) = VaultSecret
              \/ ToLower (PasswordType cred) = VaultSecret)
             /\ Username cred <> "" /\ Password cred <> ""
             /\ Identity cred <> ""
             /\ c = {| Registry := Registry cred;
                       Username := Username cred;
                       UsernameType := ToLower (UsernameType cred);
                       Password := Password cred;
                       PasswordType := ToLower (PasswordType cred);
                       Identity := Identity cred;
                       ArmResource := "" |})
        \/ (ToLower (UsernameType cred) = ""
             /\ ToLower (PasswordType cred) = ""
             /\ Identity cred <> "" /\ ArmResource cred <> ""
             /\ c = {| Registry := Registry cred;
                       Username := "";
                       UsernameType := "";
                       Password := "";
                       PasswordType := "";
                       Identity := Identity cred;
                       ArmResource := ArmResource cred |})).
Proof.
  unfold CreateRegistryCredentialFromString.
  destruct (json_Unmarshal str zeroRegistryCredential) as [cred [e |]] eqn:Hdec;
    [discriminate |].
  destruct (String.eqb_spec (Registry cred) "") as [Hr | Hr]; [discriminate |].
  intros Hc. exists cred. split; [reflexivity |]. split; [exact Hr |].
  revert Hc.
  destruct (String.eqb_spec (ToLower (UsernameType cred)) Opaque) as [Huo | Huo];
    destruct (String.eqb_spec (ToLower (PasswordType cred)) Opaque) as [Hpo | Hpo];
    cbn [andb].
  1: { rewrite Huo, Hpo.
       destruct (String.eqb_spec (Username cred) ""); [discriminate |].
       destruct (String.eqb_spec (Password cred) ""); [discriminate |].
       intros [= <-]. left. auto. }
  all: destruct (String.eqb_spec (ToLower (UsernameType cred)) VaultSecret) as [Huv | Huv];
    destruct (String.eqb_spec (ToLower (PasswordType cred)) VaultSecret) as [Hpv | Hpv];
    cbn [orb].
  all: try (destruct (String.eqb_spec (Username cred) ""); [discriminate |];
            destruct (String.eqb_spec (Password cred) ""); [discriminate |];
            destruct (String.eqb_spec (Identity cred) ""); [discriminate |];
            intros [= <-]; right; left; repeat split; auto; fail).
  all: destruct (String.eqb_spec (ToLower (UsernameType cred)) "") as [Hue | Hue];
    destruct (String.eqb_spec (ToLower (PasswordType cred)) "") as [Hpe | Hpe];
    cbn [andb]; try discriminate.
  all: destruct (String.eqb_spec (Identity cred) ""); [discriminate |];
    destruct (String.eqb_spec (ArmResource cred) ""); [discriminate |];
    intros [= <-]; right; right; auto.
Qed.

End ClassifierPaths.


Section ClassifierExtras.

Import graph.

Context `{Unicode} `{JSON}.

Implicit Types (str : string) (cred c : RegistryCredential).

(** Splits a goal about a call into one goal for each [return] of the
    function, with the tests that lead to it as hypotheses. *)
Ltac returns_of str :=
  unfold CreateRegistryCredentialFromString;
  let cred := fresh "cred" in
  let e := fresh "e" in
  let Hdec := fresh "Hdec" in
  destruct (json_Unmarshal str zeroRegistryCredential) as [cred [e |]] eqn:Hdec;
  repeat match goal with
    | |- context [String.eqb ?a ?b] =>
        destruct (String.eqb_spec a b); cbn [andb orb]
    end;
  cbn [fst snd].

(** X1. When the codec reports an error, the call returns no credential and
    that error wrapped with the text "unable to unmarshal Credentials from
    string", whatever the codec left in the struct: no field is validated,
    and the error is none of the six validation errors. *)
Theorem malformed_input_wrapped str cred (e : errors.error) :
  json_Unmarshal str zeroRegistryCredential = (cred, Some e) ->
  let out := CreateRegistryCredentialFromString str in
  out = (None, Some (errors.Wrap e "unable to unmarshal Credentials from string"))
  /\ (forall err, out.2 = Some err ->
      errors.Error err
      = "unable to unmarshal Credentials from string: " +:+ errors.Error e
      /\ err <> errInvalidRegName /\ err <> errInvalidUsername
      /\ err <> errInvalidPassword /\ err <> errInvalidIdentity
      /\ err <> errInvalidArmResourceID /\ err <> errCouldNotClassify).
Proof.
  intros Hdec out. subst out. rewrite (create_malformed str cred e Hdec).
  split; [reflexivity |]. intros err [= <-].
  split; [reflexivity |]. repeat split; discriminate.
Qed.

(** X2. Every credential a call returns has a registry and one of the three
    shapes in full: opaque (both tags "opaque", username and password set,
    identity and armResource empty), vault secret (a tag "vaultsecret",
    username, password and identity set, armResource empty), or managed
    identity (tags, username and password empty, identity and armResource
    set). *)
Theorem returned_credential_shape str c :
  (CreateRegistryCredentialFromString str).1 = Some c ->
  Registry c <> ""
  /\ ((UsernameType c = "opaque" /\ PasswordType c = "opaque"
       /\ Username c <> "" /\ Password c <> ""
       /\ Identity c = "" /\ ArmResource c = "")
      \/ ((UsernameType c = "vaultsecret" \/ PasswordType c = "vaultsecret")
          /\ Username c <> "" /\ Password c <> "" /\ Identity c <> ""
          /\ ArmResource c = "")
      \/ (UsernameType c = "" /\ PasswordType c = ""
          /\ Username c = "" /\ Password c = ""
          /\ Identity c <> "" /\ ArmResource c <> "")).
Proof.
  intros Hc.
  destruct (created_inv str c Hc)
    as (cred & _ & Hr & [(_ & _ & Hu & Hp & ->)
                        | [(Hv & Hu & Hp & Hi & ->)
                          | (_ & _ & Hi & Ha & ->)]]);
    cbn; (split; [exact Hr |]).
  - left. repeat split; assumption.
  - right. left. repeat split; assumption.
  - right. right. repeat split; assumption.
Qed.

(** X3. A call returns either a credential and a nil error, or no credential
    and an error: never both, never neither. *)
Theorem credential_xor_error str :
  let out := CreateRegistryCredentialFromString str in
  (out.1 = None <-> out.2 <> None)
  /\ (out.2 = None <-> out.1 <> None).
Proof.
  intros out. subst out. returns_of str; split; split; congruence.
Qed.

(** X4. The error of a call is the codec's error wrapped, or one of the six
    validation errors; and a validation error means that the input did
    deserialize. *)
Theorem error_kinds str (err : errors.error) :
  (CreateRegistryCredentialFromString str).2 = Some err ->
  (exists cred e,
      json_Unmarshal str zeroRegistryCredential = (cred, Some e)
      /\ err = errors.Wrap e "unable to unmarshal Credentials from string")
  \/ ((exists cred, json_Unmarshal str zeroRegistryCredential = (cred, None))
      /\ (err = errInvalidRegName \/ err = errInvalidUsername
          \/ err = errInvalidPassword \/ err = errInvalidIdentity
          \/ err = errInvalidArmResourceID \/ err = errCouldNotClassify)).
Proof.
  returns_of str; intros Herr; try discriminate; injection Herr as <-;
    first [ left; eauto; fail | right; split; [eauto | tauto] ].
Qed.

(** X5. The type fields count by their lowercase form only: two inputs that
    deserialize to structs with the same registry, username, password,
    identity and armResource, and whose type fields have the same lowercase
    forms, get the same result. *)
Theorem classification_ignores_tag_case str1 str2 cred1 cred2 :
  json_Unmarshal str1 zeroRegistryCredential = (cred1, None) ->
  json_Unmarshal str2 zeroRegistryCredential = (cred2, None) ->
  Registry cred1 = Registry cred2 ->
  Username cred1 = Username cred2 ->
  Password cred1 = Password cred2 ->
  Identity cred1 = Identity cred2 ->
  ArmResource cred1 = ArmResource cred2 ->
  ToLower (UsernameType cred1) = ToLower (UsernameType cred2) ->
  ToLower (PasswordType cred1) = ToLower (PasswordType cred2) ->
  CreateRegistryCredentialFromString str1
  = CreateRegistryCredentialFromString str2.
Proof.
  intros Hdec1 Hdec2 Hr Hu Hp Hi Ha Hut Hpt.
  unfold CreateRegistryCredentialFromString.
  rewrite Hdec1, Hdec2, Hr, Hu, Hp, Hi, Ha, Hut, Hpt. reflexivity.
Qed.

(** X6. A returned credential is a fixed point of the classifier: an input
    that deserializes to a credential a call has returned, and whose type
    tags are their own lowercase forms, is accepted and returns that same
    credential. *)
Theorem returned_credential_reclassifies str str' c :
  (CreateRegistryCredentialFromString str).1 = Some c ->
  json_Unmarshal str' zeroRegistryCredential = (c, None) ->
  ToLower (UsernameType c) = UsernameType c ->
  ToLower (PasswordType c) = PasswordType c ->
  CreateRegistryCredentialFromString str' = (Some c, None).
Proof.
  intros Hc Hdec' Hut Hpt.
  destruct (created_inv str c Hc)
    as (cred & _ & Hr & [(_ & _ & Hu & Hp & Heq)
                        | [(Hv & Hu & Hp & Hi & Heq)
                          | (_ & _ & Hi & Ha & Heq)]]).
  - rewrite (create_opaque str' c Hdec');
      rewrite ?Hut, ?Hpt; subst c; cbn; try assumption; try reflexivity.
    rewrite (eqb_empty_false _ Hu), (eqb_empty_false _ Hp). reflexivity.
  - rewrite (create_vault str' c Hdec'); rewrite ?Hut, ?Hpt.
    + subst c. cbn. rewrite (eqb_empty_false _ Hu), (eqb_empty_false _ Hp),
        (eqb_empty_false _ Hi). reflexivity.
    + subst c. exact Hr.
    + subst c. exact Hv.
  - rewrite (create_msi str' c Hdec');
      rewrite ?Hut, ?Hpt; subst c; cbn; try assumption; try reflexivity.
    rewrite (eqb_empty_false _ Hi), (eqb_empty_false _ Ha). reflexivity.
Qed.

(** X7. A returned credential holds nothing that the input did not: its
    registry is the input's, its type tags are the lowercase forms of the
    input's type fields, and each of its other fields is the input's field or
    empty. *)
Theorem returned_credential_provenance str c :
  (CreateRegistryCredentialFromString str).1 = Some c ->
  exists cred,
    json_Unmarshal str zeroRegistryCredential = (cred, None)
    /\ Registry c = Registry cred
    /\ UsernameType c = ToLower (UsernameType cred)
    /\ PasswordType c = ToLower (PasswordType cred)
    /\ (Username c = Username cred \/ Username c = "")
    /\ (Password c = Password cred \/ Password c = "")
    /\ (Identity c = Identity cred \/ Identity c = "")
    /\ (ArmResource c = ArmResource cred \/ ArmResource c = "").
Proof.
  intros Hc.
  destruct (created_inv str c Hc)
    as (cred & Hdec & Hr & [(Hut & Hpt & _ & _ & ->)
                           | [(_ & _ & _ & _ & ->)
                             | (Hut & Hpt & _ & _ & ->)]]);
    exists cred; cbn; rewrite ?Hut, ?Hpt; repeat split; auto.
Qed.

End ClassifierExtras.

(** * Further properties of [Equals] *)

(** X8. [Equals] decides equality of credentials, nil included: it returns
    true exactly when both are nil or both are credentials with the same
    seven fields; so it is symmetric and transitive, and a credential never
    equals nil. *)
Theorem Equals_equivalence (s t u : option graph.RegistryCredential) :
  (graph.Equals s t = true <-> s = t)
  /\ graph.Equals s t = graph.Equals t s
  /\ (graph.Equals s t = true -> graph.Equals t u = true ->
      graph.Equals s u = true)
  /\ (forall c, graph.Equals (Some c) None = false
                /\ graph.Equals None (Some c) = false).
Proof.
  split; [apply Equals_eq |]. split; [apply Equals_sym |]. split.
  - rewrite !Equals_eq. congruence.
  - intros c. split; reflexivity.
Qed.

(** * Further properties of the digest resolver *)

Section ResolverPaths.

Import errors builder.

Context `{Collaborators}.

Implicit Types (d : remoteDigest) (ctx : context_Context) (ref : option ptr)
  (p : ptr) (w : World) (opts : ResolverOptions).

(** The path of a reference: registry/repository:tag, with the tag [latest]
    for an empty tag. *)
Local Abbreviation pathOf r :=
  (image.Registry r +:+ "/" +:+ image.Repository r +:+ ":"
   +:+ (if String.eqb (image.Tag r) "" then "latest" else image.Tag r)).

Lemma resolveAndStore_invalid opts ctx p w (e : error) :
  reference_Parse (pathOf (references w p)) = Err e ->
  resolveAndStore opts ctx p w
  = (Some (Wrap e ("Failed to parse the reference "
                   +:+ image.Reference_ (references w p))), w).
Proof.
  intros Hparse. unfold resolveAndStore, bind.
  rewrite getReferencePath_path. cbv zeta. rewrite Hparse. reflexivity.
Qed.

Lemma resolveAndStore_refused opts ctx p w
    (fullRef : reference_Reference) (e : error) (n : Network) :
  reference_Parse (pathOf (references w p)) = Ok fullRef ->
  docker_Resolve (docker_NewResolver opts) ctx (reference_String fullRef)
    (network w) = (Err e, n) ->
  resolveAndStore opts ctx p w
  = (Some (Wrap e ("Failed to Resolve the reference '"
                   +:+ image.Reference_ (references w p) +:+ "'")),
     {| references := references w;
        credentials := credentials w;
        network := n;
        trace := trace w
                 ++ [ResolveCalled (docker_NewResolver opts) ctx
                       (reference_String fullRef)] |}).
Proof.
  intros Hparse Hresolve. unfold resolveAndStore, bind.
  rewrite getReferencePath_path. cbv zeta. rewrite Hparse.
  unfold Resolve. rewrite Hresolve. reflexivity.
Qed.

Lemma resolveAndStore_resolved opts ctx p w
    (fullRef : reference_Reference) (name : string)
    (desc : ocispec.Descriptor) (n : Network) :
  reference_Parse (pathOf (references w p)) = Ok fullRef ->
  docker_Resolve (docker_NewResolver opts) ctx (reference_String fullRef)
    (network w) = (Ok (name, desc), n) ->
  resolveAndStore opts ctx p w
  = (None,
     {| references :=
          <[p := image.setDigest (references w p) (ocispec.Digest desc)]>
            (references w);
        credentials := credentials w;
        network := n;
        trace := trace w
                 ++ [ResolveCalled (docker_NewResolver opts) ctx
                       (reference_String fullRef);
                     DigestStored p (ocispec.Digest desc)] |}).
Proof.
  intros Hparse Hresolve. unfold resolveAndStore, bind.
  rewrite getReferencePath_path. cbv zeta. rewrite Hparse.
  unfold Resolve. rewrite Hresolve.
  unfold storeDigest, ocispec.Digest_String, ret. cbn.
  rewrite <- app_assoc. reflexivity.
Qed.

(** The credential block, when it does not fail. *)
Lemma PopulateDigest_no_entry d ctx p w :
  image.Digest (references w p) = "" ->
  image.Reference_ (references w p) <> NoBaseImageSpecifierLatest ->
  (lookupCreds (registryCreds d) (image.Registry (references w p)) w).1 = None ->
  PopulateDigest d ctx (Some p) w
  = resolveAndStore {| Client := http_DefaultClient; Credentials := None |}
      ctx p w.
Proof.
  intros Hd Hm Hentry.
  rewrite (PopulateDigest_past_short_circuits d ctx p w Hd Hm), Hentry.
  reflexivity.
Qed.

Lemma PopulateDigest_entry d ctx p w (cred : login.ResolvedRegistryCred) :
  image.Digest (references w p) = "" ->
  image.Reference_ (references w p) <> NoBaseImageSpecifierLatest ->
  (lookupCreds (registryCreds d) (image.Registry (references w p)) w).1
  = Some cred ->
  login.ResolvedValue (login.Username cred) <> "" ->
  login.ResolvedValue (login.Password cred) <> "" ->
  PopulateDigest d ctx (Some p) w
  = resolveAndStore
      {| Client := http_DefaultClient;
         Credentials :=
           Some (fun _ : string =>
                   (login.ResolvedValue (login.Username cred),
                    login.ResolvedValue (login.Password cred),
                    None)) |} ctx p w.
Proof.
  intros Hd Hm Hentry Hu Hp.
  rewrite (PopulateDigest_past_short_circuits d ctx p w Hd Hm), Hentry.
  rewrite (eqb_empty_false _ Hu), (eqb_empty_false _ Hp). reflexivity.
Qed.

(** X9. [getReferencePath] never writes to the store.  It parses the path
    registry/repository:tag, with [latest] for an empty tag; it returns the
    [String()] of the parsed reference and a nil error, or the empty string
    and the parser's error wrapped with the reference's display string. *)
Theorem getReferencePath_result p w :
  let r := references w p in
  let out := getReferencePath p w in
  out.2 = w
  /\ (forall fullRef, reference_Parse (pathOf r) = Ok fullRef ->
      out.1 = (reference_String fullRef, None))
  /\ (forall e, reference_Parse (pathOf r) = Err e ->
      out.1 = ("", Some (Wrap e ("Failed to parse the reference "
                                 +:+ image.Reference_ r)))).
Proof.
  intros r out. subst r out. rewrite getReferencePath_path. cbv zeta.
  split; [reflexivity |].
  split; intros x Hparse; rewrite Hparse; reflexivity.
Qed.

(** X10. A reference with an empty digest that is not the marker, and whose
    registry has no entry in the credential table (or the table is the nil
    map), is resolved without credentials: when its path parses and the
    registry answers, the call returns nil, has made the one request, with
    the caller's context and options without a credential callback, for the
    parsed reference, and has stored the digest of the answer. *)
Theorem PopulateDigest_resolves_unauthenticated d ctx p w
    (fullRef : reference_Reference) (name : string)
    (desc : ocispec.Descriptor) (n : Network) :
  image.Digest (references w p) = "" ->
  image.Reference_ (references w p) <> NoBaseImageSpecifierLatest ->
  registryCreds d = None
  \/ (exists m, registryCreds d = Some m
        /\ credentials w m !! image.Registry (references w p) = None) ->
  reference_Parse (pathOf (references w p)) = Ok fullRef ->
  docker_Resolve
    (docker_NewResolver {| Client := http_DefaultClient; Credentials := None |})
    ctx (reference_String fullRef) (network w) = (Ok (name, desc), n) ->
  PopulateDigest d ctx (Some p) w
  = (None,
     {| references :=
          <[p := image.setDigest (references w p) (ocispec.Digest desc)]>
            (references w);
        credentials := credentials w;
        network := n;
        trace := trace w
                 ++ [ResolveCalled
                       (docker_NewResolver
                          {| Client := http_DefaultClient;
                             Credentials := None |})
                       ctx (reference_String fullRef);
                     DigestStored p (ocispec.Digest desc)] |}).
Proof.
  intros Hd Hm Hentry Hparse Hresolve.
  rewrite (PopulateDigest_no_entry d ctx p w Hd Hm).
  - now apply resolveAndStore_resolved with (name := name).
  - unfold lookupCreds. cbn [fst].
    destruct Hentry as [-> | (m & -> & Hnone)]; [reflexivity | exact Hnone].
Qed.

(** X11. When the credential table has an entry for the reference's registry
    with both resolved values non-empty, and the path parses, the call makes
    its request with a credential callback that returns this username and
    this password, and a nil error, for every host name it is asked about. *)
Theorem PopulateDigest_resolves_with_credentials d ctx p w (m : ptr)
    (cred : login.ResolvedRegistryCred) (fullRef : reference_Reference) :
  image.Digest (references w p) = "" ->
  image.Reference_ (references w p) <> NoBaseImageSpecifierLatest ->
  registryCreds d = Some m ->
  credentials w m !! image.Registry (references w p) = Some cred ->
  login.ResolvedValue (login.Username cred) <> "" ->
  login.ResolvedValue (login.Password cred) <> "" ->
  reference_Parse (pathOf (references w p)) = Ok fullRef ->
  let out := PopulateDigest d ctx (Some p) w in
  exists (f : string -> string * string * option error) (rest : list Event),
    (forall hostName : string,
        f hostName = (login.ResolvedValue (login.Username cred),
                      login.ResolvedValue (login.Password cred), None))
    /\ trace out.2
       = (trace w
          ++ ResolveCalled
               (docker_NewResolver
                  {| Client := http_DefaultClient; Credentials := Some f |})
               ctx (reference_String fullRef) :: rest)%list.
Proof.
  intros Hd Hm Hmap Hentry Hu Hp Hparse out. subst out.
  rewrite (PopulateDigest_entry d ctx p w cred Hd Hm); try assumption;
    [| unfold lookupCreds; rewrite Hmap; exact Hentry].
  eexists. 
  destruct (docker_Resolve
              (docker_NewResolver
                 {| Client := http_DefaultClient;
                    Credentials :=
                      Some (fun _ : string =>
                              (login.ResolvedValue (login.Username cred),
                               login.ResolvedValue (login.Password cred),
                               None)) |})
              ctx (reference_String fullRef) (network w))
    as [[[name desc] | e] n] eqn:Hresolve.
  - rewrite (resolveAndStore_resolved _ ctx p w fullRef name desc n Hparse Hresolve).
    eexists. split; [intros hostName; reflexivity |]. reflexivity.
  - rewrite (resolveAndStore_refused _ ctx p w fullRef e n Hparse Hresolve).
    eexists. split; [intros hostName; reflexivity |]. reflexivity.
Qed.

(** X12. When the credential block lets the call through (no entry, or an
    entry with both resolved values non-empty) and the path of the reference
    does not parse, the call returns the parser's error wrapped with the
    reference's display string and leaves the whole store as it was: the
    registry is not asked. *)
Theorem PopulateDigest_invalid_reference d ctx p w (e : error) :
  image.Digest (references w p) = "" ->
  image.Reference_ (references w p) <> NoBaseImageSpecifierLatest ->
  (forall m cred,
      registryCreds d = Some m ->
      credentials w m !! image.Registry (references w p) = Some cred ->
      login.ResolvedValue (login.Username cred) <> ""
      /\ login.ResolvedValue (login.Password cred) <> "") ->
  reference_Parse (pathOf (references w p)) = Err e ->
  PopulateDigest d ctx (Some p) w
  = (Some (Wrap e ("Failed to parse the reference "
                   +:+ image.Reference_ (references w p))), w).
Proof.
  intros Hd Hm Hcreds Hparse.
  destruct (lookupCreds (registryCreds d) (image.Registry (references w p)) w).1
    as [cred |] eqn:Hentry.
  - assert (Hok : login.ResolvedValue (login.Username cred) <> ""
                  /\ login.ResolvedValue (login.Password cred) <> "").
    { unfold lookupCreds in Hentry. cbn [fst] in Hentry.
      destruct (registryCreds d) as [m |] eqn:Hmap; [| discriminate].
      now apply (Hcreds m cred). }
    destruct Hok as [Hu Hp].
    rewrite (PopulateDigest_entry d ctx p w cred Hd Hm Hentry Hu Hp).
    now apply resolveAndStore_invalid.
  - rewrite (PopulateDigest_no_entry d ctx p w Hd Hm Hentry).
    now apply resolveAndStore_invalid.
Qed.

(** C8. The digest is written once, after the registry answered, and only
    then.  The events of a call are a suffix [evs] of the trace.  A call that
    returns an error leaves every reference as it was and stores no digest.
    A digest stored means that the call returned nil, that the registry
    answered with that digest, and that the call's events are the one
    request followed by the one store; a call that stores no digest leaves
    every reference as it was.  A request that the registry answers is
    followed by the one store of the answered digest, which the reference
    then holds, and the call returns nil.  And the store does happen: for a
    reference with an empty digest that is not the marker, when the
    credential block lets the call through with options [opts], the path
    parses and the registry answers, the call returns nil with the answered
    digest written to the reference and the request and the store as its
    two events. *)
Theorem PopulateDigest_digest_atomic d ctx ref w :
  let out := PopulateDigest d ctx ref w in
  exists evs : list Event,
    trace out.2 = (trace w ++ evs)%list
    /\ (out.1 <> None ->
        references out.2 = references w
        /\ forall p digest, ~ In (DigestStored p digest) evs)
    /\ (forall p digest, In (DigestStored p digest) evs ->
        out.1 = None /\ ref = Some p
        /\ exists resolver imageRef name,
            docker_Resolve resolver ctx imageRef (network w)
            = (Ok (name, ocispec.mkDescriptor digest), network out.2)
            /\ evs = [ResolveCalled resolver ctx imageRef; DigestStored p digest]
            /\ references out.2
               = <[p := image.setDigest (references w p) digest]> (references w))
    /\ ((forall p digest, ~ In (DigestStored p digest) evs) ->
        references out.2 = references w)
    /\ (forall resolver imageRef name desc n,
        In (ResolveCalled resolver ctx imageRef) evs ->
        docker_Resolve resolver ctx imageRef (network w) = (Ok (name, desc), n) ->
        out.1 = None
        /\ exists p,
            ref = Some p
            /\ evs = [ResolveCalled resolver ctx imageRef;
                      DigestStored p (ocispec.Digest desc)]
            /\ image.Digest (references out.2 p) = ocispec.Digest desc)
    /\ (forall p opts (fullRef : reference_Reference) name desc n,
        ref = Some p ->
        image.Digest (references w p) = "" ->
        image.Reference_ (references w p) <> NoBaseImageSpecifierLatest ->
        ((lookupCreds (registryCreds d) (image.Registry (references w p)) w).1
         = None
         /\ opts = {| Client := http_DefaultClient; Credentials := None |})
        \/ (exists cred,
               (lookupCreds (registryCreds d)
                  (image.Registry (references w p)) w).1 = Some cred
               /\ login.ResolvedValue (login.Username cred) <> ""
               /\ login.ResolvedValue (login.Password cred) <> ""
               /\ opts = {| Client := http_DefaultClient;
                            Credentials :=
                              Some (fun _ : string =>
                                      (login.ResolvedValue (login.Username cred),
                                       login.ResolvedValue (login.Password cred),
                                       None)) |}) ->
        reference_Parse (pathOf (references w p)) = Ok fullRef ->
        docker_Resolve (docker_NewResolver opts) ctx (reference_String fullRef)
          (network w) = (Ok (name, desc), n) ->
        out
        = (None,
           {| references :=
                <[p := image.setDigest (references w p) (ocispec.Digest desc)]>
                  (references w);
              credentials := credentials w;
              network := n;
              trace := trace w
                       ++ [ResolveCalled (docker_NewResolver opts) ctx
                             (reference_String fullRef);
                           DigestStored p (ocispec.Digest desc)] |})
        /\ image.Digest (references out.2 p) = ocispec.Digest desc).
Proof.
  intros out.
  assert (Hstored : forall p opts (fullRef : reference_Reference) name desc n,
    ref = Some p ->
    image.Digest (references w p) = "" ->
    image.Reference_ (references w p) <> NoBaseImageSpecifierLatest ->
    ((lookupCreds (registryCreds d) (image.Registry (references w p)) w).1
     = None
     /\ opts = {| Client := http_DefaultClient; Credentials := None |})
    \/ (exists cred,
           (lookupCreds (registryCreds d)
              (image.Registry (references w p)) w).1 = Some cred
           /\ login.ResolvedValue (login.Username cred) <> ""
           /\ login.ResolvedValue (login.Password cred) <> ""
           /\ opts = {| Client := http_DefaultClient;
                        Credentials :=
                          Some (fun _ : string =>
                                  (login.ResolvedValue (login.Username cred),
                                   login.ResolvedValue (login.Password cred),
                                   None)) |}) ->
    reference_Parse (pathOf (references w p)) = Ok fullRef ->
    docker_Resolve (docker_NewResolver opts) ctx (reference_String fullRef)
      (network w) = (Ok (name, desc), n) ->
    out
    = (None,
       {| references :=
            <[p := image.setDigest (references w p) (ocispec.Digest desc)]>
              (references w);
          credentials := credentials w;
          network := n;
          trace := trace w
                   ++ [ResolveCalled (docker_NewResolver opts) ctx
                         (reference_String fullRef);
                       DigestStored p (ocispec.Digest desc)] |})
    /\ image.Digest (references out.2 p) = ocispec.Digest desc).
  { intros p opts fullRef name desc n -> Hd Hm Hopts Hparse Hresolve.
    assert (Hout : out
      = (None,
         {| references :=
              <[p := image.setDigest (references w p) (ocispec.Digest desc)]>
                (references w);
            credentials := credentials w;
            network := n;
            trace := trace w
                     ++ [ResolveCalled (docker_NewResolver opts) ctx
                           (reference_String fullRef);
                         DigestStored p (ocispec.Digest desc)] |})).
    { subst out.
      destruct Hopts as [[Hentry ->] | (cred & Hentry & Hu & Hp & ->)].
      - rewrite (PopulateDigest_no_entry d ctx p w Hd Hm Hentry).
        now apply resolveAndStore_resolved with (name := name).
      - rewrite (PopulateDigest_entry d ctx p w cred Hd Hm Hentry Hu Hp).
        now apply resolveAndStore_resolved with (name := name). }
    split; [exact Hout |]. rewrite Hout. cbn [snd references].
    rewrite fn_lookup_insert. reflexivity. }
  cut (exists evs : list Event,
    trace out.2 = (trace w ++ evs)%list
    /\ (out.1 <> None ->
        references out.2 = references w
        /\ forall p digest, ~ In (DigestStored p digest) evs)
    /\ (forall p digest, In (DigestStored p digest) evs ->
        out.1 = None /\ ref = Some p
        /\ exists resolver imageRef name,
            docker_Resolve resolver ctx imageRef (network w)
            = (Ok (name, ocispec.mkDescriptor digest), network out.2)
            /\ evs = [ResolveCalled resolver ctx imageRef; DigestStored p digest]
            /\ references out.2
               = <[p := image.setDigest (references w p) digest]> (references w))
    /\ ((forall p digest, ~ In (DigestStored p digest) evs) ->
        references out.2 = references w)
    /\ (forall resolver imageRef name desc n,
        In (ResolveCalled resolver ctx imageRef) evs ->
        docker_Resolve resolver ctx imageRef (network w) = (Ok (name, desc), n) ->
        out.1 = None
        /\ exists p,
            ref = Some p
            /\ evs = [ResolveCalled resolver ctx imageRef;
                      DigestStored p (ocispec.Digest desc)]
            /\ image.Digest (references out.2 p) = ocispec.Digest desc)).
  { intros (evs & Ht & Herr & Hin & Hnone & Hanswered).
    exists evs. repeat (split; [assumption |]). exact Hstored. }
  clear Hstored. subst out.
  destruct (PopulateDigest_paths d ctx ref w)
    as [He | [[e He] | [(resolver & imageRef & e & e' & n & Hr & He)
                       | (p & resolver & imageRef & name & desc & n & -> & Hr & He)]]];
    rewrite He; cbn [fst snd trace references network].
  - exists []. rewrite app_nil_r. repeat split; auto; contradiction.
  - exists []. rewrite app_nil_r. repeat split; auto; contradiction.
  - exists [ResolveCalled resolver ctx imageRef].
    split; [reflexivity |]. split; [| split; [| split]].
    + intros _. split; [reflexivity |].
      intros q digest [Hin | []]. discriminate.
    + intros q digest [Hin | []]. discriminate.
    + reflexivity.
    + intros resolver' imageRef' name' desc' n' [Hin | []] Hanswer.
      injection Hin as <- <-. rewrite Hr in Hanswer. discriminate.
  - exists [ResolveCalled resolver ctx imageRef;
            DigestStored p (ocispec.Digest desc)].
    split; [reflexivity |]. split; [| split; [| split]].
    + intros Herr. now contradiction Herr.
    + intros q digest [Hin | [Hin | []]]; [discriminate |].
      injection Hin as <- <-. split; [reflexivity |]. split; [reflexivity |].
      exists resolver, imageRef, name. destruct desc as [digest].
      split; [exact Hr |]. split; reflexivity.
    + intros Hnone. exfalso.
      apply (Hnone p (ocispec.Digest desc)). right. left. reflexivity.
    + intros resolver' imageRef' name' desc' n' [Hin | [Hin | []]] Hanswer;
        [| discriminate].
      injection Hin as <- <-. rewrite Hr in Hanswer.
      injection Hanswer as _ <- _.
      split; [reflexivity |]. exists p. split; [reflexivity |].
      split; [reflexivity |]. rewrite fn_lookup_insert. reflexivity.
Qed.

(** Past the short circuits a call fails in its credential block, with the
    store as it was, or runs [resolveAndStore] with options that hold the
    default HTTP client. *)
Lemma PopulateDigest_live d ctx p w :
  image.Digest (references w p) = "" ->
  image.Reference_ (references w p) <> NoBaseImageSpecifierLatest ->
  (exists e, PopulateDigest d ctx (Some p) w = (Some e, w))
  \/ (exists opts,
         Client opts = http_DefaultClient
         /\ PopulateDigest d ctx (Some p) w = resolveAndStore opts ctx p w).
Proof.
  intros Hd Hm. rewrite (PopulateDigest_past_short_circuits d ctx p w Hd Hm).
  destruct (lookupCreds _ _ w).1 as [cred |].
  - destruct (_ || _); [left; eauto |].
    right. eexists. split; [| reflexivity]. reflexivity.
  - right. eexists. split; [| reflexivity]. reflexivity.
Qed.

(** X13. When the credential block lets the call through with options
    [opts] (without a callback when the registry has no entry, with the
    entry's callback otherwise), the path parses and the registry refuses
    the request with an error, the call returns that error wrapped with the
    reference's display string in quotes; it has made that one request and
    stored nothing: every reference and credential table is as it was. *)
Theorem PopulateDigest_resolution_failed d ctx p w opts
    (fullRef : reference_Reference) (e : error) (n : Network) :
  image.Digest (references w p) = "" ->
  image.Reference_ (references w p) <> NoBaseImageSpecifierLatest ->
  ((lookupCreds (registryCreds d) (image.Registry (references w p)) w).1 = None
   /\ opts = {| Client := http_DefaultClient; Credentials := None |})
  \/ (exists cred,
         (lookupCreds (registryCreds d) (image.Registry (references w p)) w).1
         = Some cred
         /\ login.ResolvedValue (login.Username cred) <> ""
         /\ login.ResolvedValue (login.Password cred) <> ""
         /\ opts = {| Client := http_DefaultClient;
                      Credentials :=
                        Some (fun _ : string =>
                                (login.ResolvedValue (login.Username cred),
                                 login.ResolvedValue (login.Password cred),
                                 None)) |}) ->
  reference_Parse (pathOf (references w p)) = Ok fullRef ->
  docker_Resolve (docker_NewResolver opts) ctx (reference_String fullRef)
    (network w) = (Err e, n) ->
  PopulateDigest d ctx (Some p) w
  = (Some (Wrap e ("Failed to Resolve the reference '"
                   +:+ image.Reference_ (references w p) +:+ "'")),
     {| references := references w;
        credentials := credentials w;
        network := n;
        trace := trace w
                 ++ [ResolveCalled (docker_NewResolver opts) ctx
                       (reference_String fullRef)] |}).
Proof.
  intros Hd Hm [[Hentry ->] | (cred & Hentry & Hu & Hp & ->)] Hparse Hresolve.
  - rewrite (PopulateDigest_no_entry d ctx p w Hd Hm Hentry).
    now apply resolveAndStore_refused.
  - rewrite (PopulateDigest_entry d ctx p w cred Hd Hm Hentry Hu Hp).
    now apply resolveAndStore_refused.
Qed.

(** X14. With a registry that never answers with an empty digest, a call
    that returned nil makes any later call on the same reference, by any
    helper and with any context, return nil at once: the two calls in
    sequence leave the store the first call left, and ask the registry no
    second time. *)
Theorem PopulateDigest_twice d d' ctx ctx' ref w :
  (forall resolver c imageRef net name desc n,
      docker_Resolve resolver c imageRef net = (Ok (name, desc), n) ->
      ocispec.Digest desc <> "") ->
  (PopulateDigest d ctx ref w).1 = None ->
  (PopulateDigest d ctx ref ;;; PopulateDigest d' ctx' ref) w
  = PopulateDigest d ctx ref w.
Proof.
  intros Hdigest Hnil. unfold bind.
  destruct ref as [p |]; [| reflexivity].
  destruct (String.eqb_spec (image.Digest (references w p)) "") as [Hd | Hd];
    [| rewrite (PopulateDigest_has_digest d ctx p w Hd);
       now apply PopulateDigest_has_digest].
  destruct (String.eqb_spec (image.Reference_ (references w p))
              NoBaseImageSpecifierLatest) as [Hm | Hm];
    [rewrite (PopulateDigest_no_base_image d ctx p w Hm);
     now apply PopulateDigest_no_base_image |].
  destruct (PopulateDigest_live d ctx p w Hd Hm) as [[e He] | (opts & _ & He)];
    rewrite He in Hnil |- *; [discriminate |].
  destruct (resolveAndStore_paths opts ctx p w)
    as [[e Hr] | [(imageRef & e & n & _ & Hr)
                 | (imageRef & name & desc & n & Hresolve & Hr)]];
    rewrite Hr in Hnil |- *; try discriminate.
  apply PopulateDigest_has_digest. cbn [references].
  rewrite fn_lookup_insert. cbn. now apply Hdigest in Hresolve.
Qed.

(** X15. A call asks the registry at most once, and never retries: either
    its trace, the network and every reference are as they were, or its
    events are one request, made with the caller's context and the default
    HTTP client, followed by at most the store of the digest; the network
    is then what that one request left. *)
Theorem PopulateDigest_one_request d ctx ref w :
  let out := PopulateDigest d ctx ref w in
  (trace out.2 = trace w /\ network out.2 = network w
   /\ references out.2 = references w)
  \/ (exists resolver imageRef (rest : list Event),
         trace out.2
         = (trace w ++ ResolveCalled resolver ctx imageRef :: rest)%list
         /\ (rest = [] \/ exists p digest, rest = [DigestStored p digest])
         /\ Client (options resolver) = http_DefaultClient
         /\ network out.2
            = (docker_Resolve resolver ctx imageRef (network w)).2).
Proof.
  intros out. subst out.
  destruct ref as [p |]; [| left; repeat split].
  destruct (String.eqb_spec (image.Digest (references w p)) "") as [Hd | Hd];
    [| rewrite (PopulateDigest_has_digest d ctx p w Hd); left; repeat split].
  destruct (String.eqb_spec (image.Reference_ (references w p))
              NoBaseImageSpecifierLatest) as [Hm | Hm];
    [rewrite (PopulateDigest_no_base_image d ctx p w Hm); left; repeat split |].
  destruct (PopulateDigest_live d ctx p w Hd Hm) as [[e He] | (opts & Hc & He)];
    rewrite He; [left; repeat split |].
  destruct (resolveAndStore_paths opts ctx p w)
    as [[e Hr] | [(imageRef & e & n & Hresolve & Hr)
                 | (imageRef & name & desc & n & Hresolve & Hr)]];
    rewrite Hr; [left; repeat split | right | right];
    exists (docker_NewResolver opts), imageRef; eexists;
    (split; [reflexivity |]); (split; [eauto |]);
    (split; [exact Hc |]); rewrite Hresolve; reflexivity.
Qed.

(** X16. The credential table counts only by its entry for the reference's
    registry: two helpers whose tables give the same answer for that registry
    (both none, or the same entry) behave alike, so a helper made from the
    nil map behaves as one whose table lacks the registry. *)
Theorem PopulateDigest_depends_on_entry d1 d2 ctx ref w :
  (forall p, ref = Some p ->
     (lookupCreds (registryCreds d1) (image.Registry (references w p)) w).1
     = (lookupCreds (registryCreds d2) (image.Registry (references w p)) w).1) ->
  PopulateDigest d1 ctx ref w = PopulateDigest d2 ctx ref w.
Proof.
  intros Hsame. destruct ref as [p |]; [| reflexivity].
  destruct (String.eqb_spec (image.Digest (references w p)) "") as [Hd | Hd];
    [| now rewrite !PopulateDigest_has_digest].
  destruct (String.eqb_spec (image.Reference_ (references w p))
              NoBaseImageSpecifierLatest) as [Hm | Hm];
    [now rewrite !PopulateDigest_no_base_image |].
  rewrite !(PopulateDigest_past_short_circuits _ ctx p w Hd Hm).
  now rewrite (Hsame p eq_refl).
Qed.

End ResolverPaths.

(** ** The further properties on the concrete inputs *)

Lemma malformed_input_wrapped_witness :
  sample.Unmarshal "{" graph.zeroRegistryCredential
  = (graph.zeroRegistryCredential,
     Some (errors.New "unexpected end of JSON input"))
  /\ sample.classify "{"
     = (None, Some (errors.Wrap (errors.New "unexpected end of JSON input")
                      "unable to unmarshal Credentials from string")).
Proof.
  split; [reflexivity |].
  destruct (@malformed_input_wrapped sample.unicode sample.json "{"
              graph.zeroRegistryCredential
              (errors.New "unexpected end of JSON input") eq_refl)
    as [Hout _].
  exact Hout.
Defined.

Lemma returned_credential_shape_witness :
  (sample.classify sample.vaultText).1
  = Some (graph.mkRegistryCredential "r.io" "u" "opaque" "kv-pass"
            "vaultsecret" "id" "")
  /\ graph.Registry (graph.mkRegistryCredential "r.io" "u" "opaque" "kv-pass"
                       "vaultsecret" "id" "") <> "".
Proof.
  assert (Hc : (sample.classify sample.vaultText).1
               = Some (graph.mkRegistryCredential "r.io" "u" "opaque" "kv-pass"
                         "vaultsecret" "id" ""))
    by reflexivity.
  split; [exact Hc |].
  destruct (@returned_credential_shape sample.unicode sample.json
              sample.vaultText _ Hc) as [Hr _].
  exact Hr.
Defined.

Lemma error_kinds_witness :
  (sample.classify sample.halfOpaqueText).2 = Some graph.errCouldNotClassify
  /\ exists cred,
      sample.Unmarshal sample.halfOpaqueText graph.zeroRegistryCredential
      = (cred, None).
Proof.
  assert (Herr : (sample.classify sample.halfOpaqueText).2
                 = Some graph.errCouldNotClassify) by reflexivity.
  split; [exact Herr |].
  destruct (@error_kinds sample.unicode sample.json sample.halfOpaqueText
              graph.errCouldNotClassify Herr)
    as [(cred & e & _ & Hwrap) | [Hdecoded _]].
  - discriminate Hwrap.
  - exact Hdecoded.
Defined.

Lemma classification_ignores_tag_case_witness :
  graph.UsernameType sampleMore.shoutedOpaqueCred = "OPAQUE"
  /\ graph.UsernameType sampleMore.loweredOpaqueCred = "opaque"
  /\ sampleMore.classify sampleMore.shoutedOpaqueText
     = sampleMore.classify sampleMore.loweredOpaqueText.
Proof.
  split; [reflexivity |]. split; [reflexivity |].
  apply (@classification_ignores_tag_case sample.unicode sampleMore.json
           sampleMore.shoutedOpaqueText sampleMore.loweredOpaqueText
           sampleMore.shoutedOpaqueCred sampleMore.loweredOpaqueCred);
    reflexivity.
Defined.

Lemma returned_credential_reclassifies_witness :
  (sampleMore.classify sampleMore.shoutedOpaqueText).1
  = Some sampleMore.loweredOpaqueCred
  /\ sampleMore.classify sampleMore.loweredOpaqueText
     = (Some sampleMore.loweredOpaqueCred, None).
Proof.
  assert (Hc : (sampleMore.classify sampleMore.shoutedOpaqueText).1
               = Some sampleMore.loweredOpaqueCred) by reflexivity.
  split; [exact Hc |].
  apply (@returned_credential_reclassifies sample.unicode sampleMore.json
           sampleMore.shoutedOpaqueText sampleMore.loweredOpaqueText
           sampleMore.loweredOpaqueCred Hc);
    reflexivity.
Defined.

Lemma returned_credential_provenance_witness :
  (sample.classify sample.msiText).1
  = Some (graph.mkRegistryCredential "r.io" "" "" "" "" "id" "/subscriptions/s")
  /\ exists cred,
      sample.Unmarshal sample.msiText graph.zeroRegistryCredential
      = (cred, None)
      /\ graph.Registry cred = "r.io".
Proof.
  assert (Hc : (sample.classify sample.msiText).1
               = Some (graph.mkRegistryCredential "r.io" "" "" "" "" "id"
                         "/subscriptions/s")) by reflexivity.
  split; [exact Hc |].
  destruct (@returned_credential_provenance sample.unicode sample.json
              sample.msiText _ Hc) as (cred & Hdec & Hr & _).
  exists cred. split; [exact Hdec |]. symmetry. exact Hr.
Defined.

Lemma PopulateDigest_resolves_unauthenticated_witness :
  builder.credentials sampleWorld.world 0 !! "r.io" = None
  /\ sampleWorld.populate (Some 0) sampleWorld.world
     = (None,
        @builder.mkWorld sampleWorld.packages
          (<[0 := image.setDigest sampleWorld.appRef "sha256:0123"]>
             sampleWorld.structs)
          (fun _ => sampleWorld.table)
          1
          [builder.ResolveCalled sampleWorld.anonymous tt "r.io/app:latest";
           builder.DigestStored 0 "sha256:0123"]).
Proof.
  split; [reflexivity |].
  apply (@PopulateDigest_resolves_unauthenticated sampleWorld.packages
           sampleWorld.collaborators sampleWorld.helper tt 0 sampleWorld.world
           "r.io/app:latest" "r.io/app:latest"
           (ocispec.mkDescriptor "sha256:0123") 1).
  - reflexivity.
  - discriminate.
  - right. exists 0. split; reflexivity.
  - reflexivity.
  - reflexivity.
Defined.

Lemma PopulateDigest_resolves_with_credentials_witness :
  builder.credentials sampleMore.secureWorld 0 !! "secure.io"
  = Some sampleWorld.resolved
  /\ exists (f : string -> string * string * option errors.error)
       (rest : list (@builder.Event sampleWorld.packages)),
      (forall hostName : string, f hostName = ("user", "pass", None))
      /\ builder.trace
           (@builder.PopulateDigest sampleWorld.packages
              sampleWorld.collaborators sampleWorld.helper tt (Some 0)
              sampleMore.secureWorld).2
         = @builder.ResolveCalled sampleWorld.packages
             (@builder.mkResolver sampleWorld.packages
                (@builder.mkResolverOptions sampleWorld.packages tt (Some f)))
             tt "secure.io/app:v3" :: rest.
Proof.
  split; [reflexivity |].
  apply (@PopulateDigest_resolves_with_credentials sampleWorld.packages
           sampleWorld.collaborators sampleWorld.helper tt 0
           sampleMore.secureWorld 0 sampleWorld.resolved "secure.io/app:v3").
  - reflexivity.
  - discriminate.
  - reflexivity.
  - reflexivity.
  - discriminate.
  - discriminate.
  - reflexivity.
Defined.

Lemma PopulateDigest_invalid_reference_witness :
  sampleWorld.parse "r.io/:latest"
  = builder.Err (errors.New "invalid reference format")
  /\ sampleWorld.populate (Some 5) sampleWorld.world
     = (Some (errors.Wrap (errors.New "invalid reference format")
                "Failed to parse the reference r.io/"),
        sampleWorld.world).
Proof.
  split; [reflexivity |].
  apply (@PopulateDigest_invalid_reference sampleWorld.packages
           sampleWorld.collaborators sampleWorld.helper tt 5 sampleWorld.world
           (errors.New "invalid reference format")).
  - reflexivity.
  - discriminate.
  - intros m cred _ Hentry. vm_compute in Hentry. discriminate Hentry.
  - reflexivity.
Defined.

Lemma PopulateDigest_resolution_failed_witness :
  sampleWorld.registry sampleWorld.anonymous tt "r.io/missing:latest" 0
  = (builder.Err (errors.New "not found"), 1)
  /\ sampleWorld.populate (Some 4) sampleWorld.world
     = (Some (errors.Wrap (errors.New "not found")
                "Failed to Resolve the reference 'r.io/missing'"),
        @builder.mkWorld sampleWorld.packages
          sampleWorld.structs
          (fun _ => sampleWorld.table)
          1
          [builder.ResolveCalled sampleWorld.anonymous tt "r.io/missing:latest"]).
Proof.
  split; [reflexivity |].
  apply (@PopulateDigest_resolution_failed sampleWorld.packages
           sampleWorld.collaborators sampleWorld.helper tt 4 sampleWorld.world
           (@builder.mkResolverOptions sampleWorld.packages tt None)
           "r.io/missing:latest" (errors.New "not found") 1).
  - reflexivity.
  - discriminate.
  - left. split; reflexivity.
  - reflexivity.
  - reflexivity.
Defined.

Lemma PopulateDigest_twice_witness :
  (sampleWorld.populate (Some 0) sampleWorld.world).1 = None
  /\ builder.bind (sampleWorld.populate (Some 0))
       (fun _ => sampleWorld.populate (Some 0)) sampleWorld.world
     = sampleWorld.populate (Some 0) sampleWorld.world.
Proof.
  split; [reflexivity |].
  apply (@PopulateDigest_twice sampleWorld.packages sampleWorld.collaborators
           sampleWorld.helper sampleWorld.helper tt tt (Some 0)
           sampleWorld.world).
  - intros resolver c imageRef net name desc n. cbn.
    unfold sampleWorld.registry.
    destruct (String.eqb imageRef "r.io/missing:latest");
      intros [= _ <- _]. discriminate.
  - reflexivity.
Defined.

Lemma PopulateDigest_depends_on_entry_witness :
  builder.registryCreds (builder.NewRemoteDigest None) = None
  /\ builder.credentials sampleWorld.world 0 !! "r.io" = None
  /\ @builder.PopulateDigest sampleWorld.packages sampleWorld.collaborators
       (builder.NewRemoteDigest None) tt (Some 0) sampleWorld.world
     = @builder.PopulateDigest sampleWorld.packages sampleWorld.collaborators
         (builder.NewRemoteDigest (Some 0)) tt (Some 0) sampleWorld.world.
Proof.
  split; [reflexivity |]. split; [reflexivity |].
  apply (@PopulateDigest_depends_on_entry sampleWorld.packages
           sampleWorld.collaborators).
  intros p [= <-]. reflexivity.
Defined.

Section ResolverErrors.

Import errors builder.

Context `{Collaborators}.

Implicit Types (d : remoteDigest) (ctx : context_Context) (ref : option ptr)
  (p : ptr) (w : World).


End ResolverErrors.


(** The store of the answered digest on the concrete registry: the digest
    of the reference is empty before the call and is the answer after it. *)
Lemma PopulateDigest_digest_atomic_witness :
  image.Digest (builder.references sampleWorld.world 0) = ""
  /\ (sampleWorld.populate (Some 0) sampleWorld.world).1 = None
  /\ image.Digest
       (builder.references
          (sampleWorld.populate (Some 0) sampleWorld.world).2 0)
     = "sha256:0123".
Proof.
  split; [reflexivity |].
  destruct (@PopulateDigest_digest_atomic sampleWorld.packages
              sampleWorld.collaborators sampleWorld.helper tt (Some 0)
              sampleWorld.world)
    as (evs & _ & _ & _ & _ & _ & Hstored).
  destruct (Hstored 0 (@builder.mkResolverOptions sampleWorld.packages tt None)
              "r.io/app:latest" "r.io/app:latest"
              (ocispec.mkDescriptor "sha256:0123") 1)
    as [Hout Hdigest].
  - reflexivity.
  - reflexivity.
  - discriminate.
  - left. split; reflexivity.
  - reflexivity.
  - reflexivity.
  - split; [| exact Hdigest].
    unfold sampleWorld.populate. rewrite Hout. reflexivity.
Defined.
